(** * caddy-cache: the request handler ([handler.go])

    A shallow embedding of the cache handler of caddy-cache: the key
    builder [getKey], the Vary matcher [matchesRequest], the hit path
    [HandleCachedResponse], the miss path [HandleNonCachedResponse] and
    the orchestrator [ServeHTTP], followed by the properties of the
    handler that the design document states.

    Conventions.
    - A Go [string] and a Go [[]byte] are Rocq strings (sequences of
      bytes).
    - [http.Header], a Go [map[string][]string], is a finite map from
      names to value lists.  Reading a missing key yields the nil slice;
      a key that is present holds a non-nil slice (possibly empty), as
      every writer of net/http stores one.  So [h !! k : option (list
      string)] is the Go value [h[k]], with [None] for nil.
    - A run-time panic is the outcome [Panics]. *)

From Stdlib Require Import ZArith NArith Ascii String List.
From stdpp Require Import base option list gmap strings fin_maps.

Open Scope string_scope.
Open Scope Z_scope.

(** ** Bytes and strings of the Go standard library *)

Module strings.

Definition byte_code (c : ascii) : N := N_of_ascii c.

(** [unicode.IsSpace] on an ASCII byte: tab, line feed, vertical tab,
    form feed, carriage return, space. *)
Definition ascii_space (c : N) : bool :=
  ((9 <=? c) && (c <=? 13) || (c =? 32))%N.

(** When [s] starts with the UTF-8 encoding of a rune that
    [unicode.IsSpace] accepts, the bytes after that rune.  The runes
    are U+0009..U+000D, U+0020, U+0085, U+00A0, U+1680,
    U+2000..U+200A, U+2028, U+2029, U+202F, U+205F and U+3000. *)
Definition after_space (s : list N) : option (list N) :=
  match s with
  | c :: r1 =>
      if ascii_space c then Some r1 else
      match r1 with
      | d :: r2 =>
          if ((c =? 194) && ((d =? 133) || (d =? 160)))%N then Some r2 else
          match r2 with
          | e :: r3 =>
              if ((c =? 225) && (d =? 154) && (e =? 128))%N then Some r3
              else if ((c =? 226) && (d =? 128) &&
                       ((128 <=? e) && (e <=? 138) || (e =? 168) ||
                        (e =? 169) || (e =? 175)))%N then Some r3
              else if ((c =? 226) && (d =? 129) && (e =? 159))%N then Some r3
              else if ((c =? 227) && (d =? 128) && (e =? 128))%N then Some r3
              else None
          | [] => None
          end
      | [] => None
      end
  | [] => None
  end.

(** The same test at the end of the string: [s] is given reversed, and
    so is the result. *)
Definition before_space (s : list N) : option (list N) :=
  match s with
  | e :: r1 =>
      if ascii_space e then Some r1 else
      match r1 with
      | d :: r2 =>
          if ((d =? 194) && ((e =? 133) || (e =? 160)))%N then Some r2 else
          match r2 with
          | c :: r3 =>
              match after_space [c; d; e] with
              | Some [] => Some r3
              | _ => None
              end
          | [] => None
          end
      | [] => None
      end
  | [] => None
  end.

(** Strips runes while [strip] finds one; [fuel] bounds the number of
    runes by the number of bytes. *)
Fixpoint strip_while (strip : list N → option (list N)) (fuel : nat)
    (s : list N) : list N :=
  match fuel with
  | O => s
  | S fuel' =>
      match strip s with
      | Some rest => strip_while strip fuel' rest
      | None => s
      end
  end.

Definition to_bytes (s : string) : list N :=
  map byte_code (list_ascii_of_string s).

Definition of_bytes (l : list N) : string :=
  string_of_list_ascii (map ascii_of_N l).

(** [strings.TrimSpace]: [TrimRightFunc(TrimLeftFunc(s, unicode.IsSpace),
    unicode.IsSpace)]. *)
Definition TrimSpace (s : string) : string :=
  let b := to_bytes s in
  let left := strip_while after_space (length b) b in
  let right := strip_while before_space (length left) (rev left) in
  of_bytes (rev right).

(** [strings.Split(s, sep)] for a separator of one byte: the pieces of
    [s] between the occurrences of [sep]; one more piece than there
    are separators, so [Split "" sep = [""]]. *)
Fixpoint Split (s : string) (sep : ascii) : list string :=
  match s with
  | EmptyString => [EmptyString]
  | String c rest =>
      if Ascii.eqb c sep then EmptyString :: Split rest sep
      else match Split rest sep with
           | piece :: pieces => String c piece :: pieces
           | [] => [String c EmptyString]
           end
  end.

End strings.

(** ** Data model *)

Definition error := string.

(** [http.Header]. *)
Abbreviation http_Header := (gmap string (list string)).

Module url.
Record URL := { Path : string; RawQuery : string }.
End url.

Module http.
Record Request := {
  Method : string;
  Host : string;
  URL : url.URL;
  Header : http_Header
}.

(** A [http.ResponseWriter] seen through its three methods: the map
    that [Header()] returns, the codes passed to [WriteHeader] and the
    bytes passed to [Write], both in call order. *)
Record ResponseWriter := {
  Header_ : http_Header;
  WriteHeader_ : list Z;
  Write_ : string
}.

Definition StatusInternalServerError : Z := 500.
End http.

Module httpserver.
(** The interface [httpserver.Handler]: [ServeHTTP(w, r) (int, error)],
    acting on the writer it is given. *)
Record Handler := {
  ServeHTTP :
    http.ResponseWriter → http.Request →
    http.ResponseWriter * (Z * option error)
}.
End httpserver.

Module Config.
Record t := { StatusHeader : string }.
End Config.

Module Request.
Record t := { HeaderMap : http_Header }.
End Request.

Module Response.
(** [Body] is the handle of a content of the cache, or nil. *)
Record t := { HeaderMap : http_Header; Body : option nat; Code : Z }.
End Response.

(** [entry.Response] is set on every path that hands an entry out, so
    the field is always present here. *)
Record HttpCacheEntry := {
  isPublic : bool;
  Expiration : Z;
  Request : Request.t;
  Response : Response.t
}.

(** The handler's [Cache] is an object of the world below; the handler
    refers to it, as it does in the source through a pointer. *)
Record CacheHandler := {
  Config : Config.t;
  Next : httpserver.Handler
}.

(** Modelled from the spec: the storage engine is not in [handler.go].  A
    content of the cache is the blob behind a [Body], with the key it was
    opened for. *)
Record Content := {
  content_key : string;
  content_bytes : string;
  content_closed : bool
}.

(** Modelled from the spec: the store is not in [handler.go].  The cache
    has the entries kept for each key, the contents opened so far (a
    [Body] handle is an index in this list), and the failure, if any,
    with which the storage answers the opening of a content for a key. *)
Record Cache := {
  entries : gmap string (list HttpCacheEntry);
  contents : list Content;
  storage_failure : string → option error
}.

(** What [PipeHandlerToChannels] hands to its consumer: the value
    received from [HeaderChannel()] and the chunks received from
    [BodyChannel()] until it is closed. *)
Module PipeWriter.
Record Headers := { StatusCode : Z; Header : http_Header }.
Record t := { HeaderChannel : Headers; BodyChannel : list string }.
End PipeWriter.

(** The three goroutines that the miss path starts. *)
Inductive goroutine :=
| go_handle (pipe : PipeWriter.t) (endChannel : nat)
    (* lines 100-105: pipe.handle(); endChannel <- struct{}{} *)
| go_drain (pipe : PipeWriter.t)
    (* lines 124-127: for range pipe.BodyChannel() {} *)
| go_save (pipe : PipeWriter.t) (bodyWriter : nat).
    (* lines 149-154: Write every chunk to bodyWriter; bodyWriter.Close() *)

(** The world a request is served in.  [w] is the client's writer and
    [cache] the handler's cache, both shared by reference in the source.
    [endChannel] and [returnedStatusCode] are the two local variables of
    [ServeHTTP] that its closure captures and assigns.  [started] lists
    the goroutines started and not waited for. *)
Record World := {
  w : http.ResponseWriter;
  cache : Cache;
  now : Z;
  channels : nat;
  started : list goroutine;
  stdout : list string;
  endChannel : option nat;
  returnedStatusCode : Z
}.

(** ** A state monad with panics *)

Inductive outcome (A : Type) :=
| Returns (a : A) (s : World)
| Panics.
Arguments Returns {A} a s.
Arguments Panics {A}.

Definition M (A : Type) : Type := World → outcome A.

#[global] Instance M_ret : MRet M := λ A a s, Returns a s.
#[global] Instance M_bind : MBind M := λ A B f m s,
  match m s with
  | Returns a s' => f a s'
  | Panics => Panics
  end.

Definition panic {A} : M A := λ _, Panics.
Definition get : M World := λ s, Returns s s.
Definition put (s : World) : M unit := λ _, Returns tt s.
Definition modify (f : World → World) : M unit := λ s, Returns tt (f s).

Definition set_w (x : http.ResponseWriter) (s : World) : World :=
  {| w := x; cache := cache s; now := now s; channels := channels s;
     started := started s; stdout := stdout s;
     endChannel := endChannel s;
     returnedStatusCode := returnedStatusCode s |}.
Definition set_cache (x : Cache) (s : World) : World :=
  {| w := w s; cache := x; now := now s; channels := channels s;
     started := started s; stdout := stdout s;
     endChannel := endChannel s;
     returnedStatusCode := returnedStatusCode s |}.
Definition set_channels (x : nat) (s : World) : World :=
  {| w := w s; cache := cache s; now := now s; channels := x;
     started := started s; stdout := stdout s;
     endChannel := endChannel s;
     returnedStatusCode := returnedStatusCode s |}.
Definition set_started (x : list goroutine) (s : World) : World :=
  {| w := w s; cache := cache s; now := now s; channels := channels s;
     started := x; stdout := stdout s;
     endChannel := endChannel s;
     returnedStatusCode := returnedStatusCode s |}.
Definition set_stdout (x : list string) (s : World) : World :=
  {| w := w s; cache := cache s; now := now s; channels := channels s;
     started := started s; stdout := x;
     endChannel := endChannel s;
     returnedStatusCode := returnedStatusCode s |}.
Definition set_endChannel (x : option nat) (s : World) : World :=
  {| w := w s; cache := cache s; now := now s; channels := channels s;
     started := started s; stdout := stdout s;
     endChannel := x;
     returnedStatusCode := returnedStatusCode s |}.
Definition set_returnedStatusCode (x : Z) (s : World) : World :=
  {| w := w s; cache := cache s; now := now s; channels := channels s;
     started := started s; stdout := stdout s;
     endChannel := endChannel s;
     returnedStatusCode := x |}.

(** [fmt.Println(err)]. *)
Definition Println (e : error) : M unit :=
  modify (λ s, set_stdout (stdout s ++ [e]) s).

(** [make(chan struct{})]: a channel no one else holds. *)
Definition make_chan : M nat :=
  s ← get; put (set_channels (S (channels s)) s);; mret (channels s).

(** [go f()]: the goroutine starts and the caller goes on. *)
Definition go (g : goroutine) : M unit :=
  modify (λ s, set_started (started s ++ [g]) s).

Definition sends_on (ch : nat) (g : goroutine) : bool :=
  match g with
  | go_handle _ ch' => Nat.eqb ch ch'
  | _ => false
  end.

(** [<-ch] on a channel that only a [go_handle] goroutine sends on, and
    only as its last statement: the receive returns once that goroutine
    has got there, so it is no longer running afterwards. *)
Definition receive (ch : nat) : M unit :=
  modify (λ s, set_started (filter (λ g, sends_on ch g = false) (started s)) s).

(** [time.Now().UTC()], in nanoseconds. *)
Definition time_Now : M Z := s ← get; mret (now s).
Definition time_Hour : Z := 3600 * 1000000000.

(** Methods of the writer [w]. *)
Definition w_WriteHeader (code : Z) : M unit :=
  modify (λ s, set_w {| http.Header_ := http.Header_ (w s);
                        http.WriteHeader_ := http.WriteHeader_ (w s) ++ [code];
                        http.Write_ := http.Write_ (w s) |} s).
Definition w_Write (b : string) : M unit :=
  modify (λ s, set_w {| http.Header_ := http.Header_ (w s);
                        http.WriteHeader_ := http.WriteHeader_ (w s);
                        http.Write_ := http.Write_ (w s) +:+ b |} s).
Definition w_set_Header (f : http_Header → http_Header) : M unit :=
  modify (λ s, set_w {| http.Header_ := f (http.Header_ (w s));
                        http.WriteHeader_ := http.WriteHeader_ (w s);
                        http.Write_ := http.Write_ (w s) |} s).

(** ** The goroutines of the miss path

    The miss path runs on three goroutines: the one that serves the
    request ([ServeHTTP], which calls [GetOrSet], its closure and
    [HandleNonCachedResponse]), the one started at line 100, which runs
    [pipe.handle()] and then sends on [endChannel], and the one started
    at line 124 or 149, which consumes the body channel.  Their
    interleavings are the paths of the step relation [step]; a send and
    a receive on a channel meet in one step. *)

Module MissPath.

(** What lines 111-137 decide once the headers are there: an error of
    the policy or of [NewContent], a response that is not cacheable, or
    one that is. *)
Inductive decision := abort | drain | save.

Record scenario := { chunks : list string; decides : decision }.

Inductive main_pc :=
| main_start          (* line 97 done, the [go] of line 100 is next *)
| main_wait_headers   (* line 108: <-pipe.HeaderChannel() *)
| main_decide         (* lines 111-137 *)
| main_wait_end       (* line 186: <-endChannel *)
| main_returned.      (* line 192 *)

(** Modelled from the spec: [PipeHandlerToChannels] is not in
    [handler.go].  Inside [pipe.handle()] the header event is sent once
    and before any body chunk, the chunks are sent in order, the body
    channel is closed when the responder finishes, and [pipe.handle()]
    returns after that.  Then comes line 104. *)
Inductive handle_pc :=
| handle_headers                  (* in pipe.handle(): header event next *)
| handle_body (rest : list string) (* in pipe.handle(): chunks to send *)
| handle_send_end                 (* line 104: endChannel <- struct{}{} *)
| handle_done.

Inductive consumer_pc :=
| consumer_receive                (* lines 125, 150: range BodyChannel() *)
| consumer_write (content : string) (* line 151: bodyWriter.Write(content) *)
| consumer_close                  (* line 153: bodyWriter.Close() *)
| consumer_done.

Record state := {
  main : main_pc;
  handle : option handle_pc;      (* [None]: not started *)
  consumer : option consumer_pc;  (* [None]: not started *)
  body_closed : bool;
  written : string;               (* the bytes in the content *)
  closed : bool                   (* the content is closed *)
}.

Definition initial : state :=
  {| main := main_start; handle := None; consumer := None;
     body_closed := false; written := ""; closed := false |}.

Definition received (sc : scenario) (content : string) : consumer_pc :=
  match decides sc with
  | save => consumer_write content
  | _ => consumer_receive
  end.

Definition after_last (sc : scenario) : consumer_pc :=
  match decides sc with
  | save => consumer_close
  | _ => consumer_done
  end.

Inductive step (sc : scenario) : state → state → Prop :=
| step_go_handle c bc wr cl :
    (* line 100 *)
    step sc
      {| main := main_start; handle := None; consumer := c;
         body_closed := bc; written := wr; closed := cl |}
      {| main := main_wait_headers; handle := Some handle_headers;
         consumer := c; body_closed := bc; written := wr; closed := cl |}
| step_headers c bc wr cl :
    (* line 108 meets the header event of the splitter *)
    step sc
      {| main := main_wait_headers; handle := Some handle_headers;
         consumer := c; body_closed := bc; written := wr; closed := cl |}
      {| main := main_decide; handle := Some (handle_body (chunks sc));
         consumer := c; body_closed := bc; written := wr; closed := cl |}
| step_abort h c bc wr cl :
    (* lines 112-115 or 134-137, then 171-173: [endChannel] stays nil,
       so lines 184-192 return at once *)
    decides sc = abort →
    step sc
      {| main := main_decide; handle := h; consumer := c;
         body_closed := bc; written := wr; closed := cl |}
      {| main := main_returned; handle := h; consumer := c;
         body_closed := bc; written := wr; closed := cl |}
| step_go_consumer h bc wr cl :
    (* lines 117-128 or 132-156, then 174-176 and 184-186 *)
    decides sc ≠ abort →
    step sc
      {| main := main_decide; handle := h; consumer := None;
         body_closed := bc; written := wr; closed := cl |}
      {| main := main_wait_end; handle := h;
         consumer := Some consumer_receive;
         body_closed := bc; written := wr; closed := cl |}
| step_chunk m content rest bc wr cl :
    (* a chunk sent by the splitter meets the receive of line 125 or 150 *)
    step sc
      {| main := m; handle := Some (handle_body (content :: rest));
         consumer := Some consumer_receive;
         body_closed := bc; written := wr; closed := cl |}
      {| main := m; handle := Some (handle_body rest);
         consumer := Some (received sc content);
         body_closed := bc; written := wr; closed := cl |}
| step_close_body m c bc wr cl :
    (* the splitter closes the body channel and pipe.handle() returns *)
    step sc
      {| main := m; handle := Some (handle_body []); consumer := c;
         body_closed := bc; written := wr; closed := cl |}
      {| main := m; handle := Some handle_send_end; consumer := c;
         body_closed := true; written := wr; closed := cl |}
| step_range_ends m h wr cl :
    (* the [range] of line 125 or 150 finds the channel closed *)
    step sc
      {| main := m; handle := h; consumer := Some consumer_receive;
         body_closed := true; written := wr; closed := cl |}
      {| main := m; handle := h; consumer := Some (after_last sc);
         body_closed := true; written := wr; closed := cl |}
| step_Write m h content bc wr cl :
    (* line 151 *)
    step sc
      {| main := m; handle := h; consumer := Some (consumer_write content);
         body_closed := bc; written := wr; closed := cl |}
      {| main := m; handle := h; consumer := Some consumer_receive;
         body_closed := bc; written := wr +:+ content; closed := cl |}
| step_Close m h bc wr cl :
    (* line 153 *)
    step sc
      {| main := m; handle := h; consumer := Some consumer_close;
         body_closed := bc; written := wr; closed := cl |}
      {| main := m; handle := h; consumer := Some consumer_done;
         body_closed := bc; written := wr; closed := true |}
| step_end c bc wr cl :
    (* the send of line 104 meets the receive of line 186 *)
    step sc
      {| main := main_wait_end; handle := Some handle_send_end;
         consumer := c; body_closed := bc; written := wr; closed := cl |}
      {| main := main_returned; handle := Some handle_done;
         consumer := c; body_closed := bc; written := wr; closed := cl |}.

(** The states that an execution of the miss path goes through. *)
Definition reachable (sc : scenario) (s : state) : Prop :=
  rtc (step sc) initial s.

(** The consumer goroutine has nothing left to do. *)
Definition consumer_finished (s : state) : Prop :=
  consumer s = None ∨ consumer s = Some consumer_done.

(** The goroutine of line 100 has sent on [endChannel]: [pipe.handle()]
    has returned and the body channel is closed. *)
Definition handle_finished (s : state) : Prop :=
  handle s = Some handle_done ∧ body_closed s = true.

(** The bytes of a list of chunks. *)
Definition join (l : list string) : string := foldr String.append "" l.

(** The chunks that the splitter has not handed over yet, and the chunk
    that the consumer holds and has not written yet. *)
Definition unsent (sc : scenario) (h : option handle_pc) : list string :=
  match h with
  | None | Some handle_headers => chunks sc
  | Some (handle_body rest) => rest
  | Some handle_send_end | Some handle_done => []
  end.

Definition pending (c : option consumer_pc) : string :=
  match c with
  | Some (consumer_write content) => content
  | _ => ""
  end.

(** A cacheable response whose body is one chunk, and the state in
    which [ServeHTTP] has returned while the consumer still holds that
    chunk. *)
Definition one_chunk : scenario := {| chunks := ["hello"]; decides := save |}.

Definition returned_early : state :=
  {| main := main_returned; handle := Some handle_done;
     consumer := Some (consumer_write "hello");
     body_closed := true; written := ""; closed := false |}.

(** All three goroutines are at their end. *)
Definition finished (s : state) : Prop :=
  main s = main_returned ∧ handle s = Some handle_done ∧
  consumer s = Some consumer_done.

(** How the program points of the three goroutines go together on a miss
    path that yields an entry. *)
Definition consistent (s : state) : Prop :=
  match main s with
  | main_start => handle s = None ∧ consumer s = None
  | main_wait_headers => handle s = Some handle_headers ∧ consumer s = None
  | main_decide =>
      ((∃ rest, handle s = Some (handle_body rest)) ∨
       handle s = Some handle_send_end) ∧ consumer s = None
  | main_wait_end =>
      ((∃ rest, handle s = Some (handle_body rest)) ∨
       handle s = Some handle_send_end) ∧ consumer s ≠ None
  | main_returned => handle s = Some handle_done ∧ consumer s ≠ None
  end ∧
  (handle s = Some handle_send_end ∨ handle s = Some handle_done ↔
   body_closed s = true) ∧
  (consumer s = Some consumer_close ∨ consumer s = Some consumer_done →
   handle s = Some handle_send_end ∨ handle s = Some handle_done).

(** A bound on the number of steps that are left. *)
Definition main_rank (m : main_pc) : nat :=
  match m with
  | main_start => 4
  | main_wait_headers => 3
  | main_decide => 2
  | main_wait_end => 1
  | main_returned => 0
  end.

Definition handle_rank (sc : scenario) (h : option handle_pc) : nat :=
  match h with
  | None => 3 * length (chunks sc) + 4
  | Some handle_headers => 3 * length (chunks sc) + 3
  | Some (handle_body rest) => 3 * length rest + 2
  | Some handle_send_end => 1
  | Some handle_done => 0
  end.

Definition consumer_rank (c : option consumer_pc) : nat :=
  match c with
  | None => 5
  | Some (consumer_write _) => 4
  | Some consumer_receive => 3
  | Some consumer_close => 2
  | Some consumer_done => 0
  end.

Definition rank (sc : scenario) (s : state) : nat :=
  main_rank (main s) + handle_rank sc (handle s) + consumer_rank (consumer s).

(** A miss on which the policy fails, for a response without a body, and
    the state in which [ServeHTTP] has returned at once while the
    goroutine of line 100 stands at its send on [endChannel]. *)
Definition failing : scenario := {| chunks := []; decides := abort |}.

Definition blocked_on_end : state :=
  {| main := main_returned; handle := Some handle_send_end;
     consumer := None; body_closed := true; written := ""; closed := false |}.

End MissPath.

(** ** An instance of what the handler is given

    A concrete choice for every function that the handler takes from
    elsewhere, with a handler, requests and a world, to run the
    definitions on. *)

Module Demo.

Definition upper (c : ascii) : ascii :=
  let n := N_of_ascii c in
  if ((97 <=? n) && (n <=? 122))%N then ascii_of_N (n - 32) else c.

Definition lower (c : ascii) : ascii :=
  let n := N_of_ascii c in
  if ((65 <=? n) && (n <=? 90))%N then ascii_of_N (n + 32) else c.

(** The canonical form of a name made of letters, digits and dashes:
    upper case at the start and after a dash, lower case elsewhere. *)
Fixpoint canonical (up : bool) (s : string) : string :=
  match s with
  | EmptyString => EmptyString
  | String c rest =>
      String (if up then upper c else lower c)
             (canonical (Ascii.eqb c "-") rest)
  end.

Definition CanonicalMIMEHeaderKey (s : string) : string := canonical true s.

(** Raw queries that are already in their encoded form. *)
Definition Query_Encode (raw : string) : string := raw.

Definition range (m : http_Header) : list (string * list string) :=
  map_to_list m.

Definition shouldUseCache (r : http.Request) : bool :=
  bool_decide (http.Method r = "GET").

(** 200 is cacheable until 600, 502 is an error of the policy, anything
    else is not cacheable. *)
Definition getCacheableStatus (r : http.Request) (code : Z)
    (headers : http_Header) (cfg : Config.t) : bool * Z * option error :=
  if code =? 200 then (true, 600, None)
  else if code =? 502 then (false, 0, Some "policy failure")
  else (false, 0, None).

(** Serves [hello] as plain text under [/hello], a 502 under [/broken]
    and a 404 elsewhere. *)
Definition responder : httpserver.Handler :=
  {| httpserver.ServeHTTP := λ x r,
       let code :=
         if bool_decide (url.Path (http.URL r) = "/hello") then 200
         else if bool_decide (url.Path (http.URL r) = "/broken") then 502
         else 404 in
       ({| http.Header_ := <["Content-Type" := ["text/plain"]]> (http.Header_ x);
           http.WriteHeader_ := (http.WriteHeader_ x ++ [code])%list;
           http.Write_ := http.Write_ x +:+ "hello" |},
        (code, None)) |}.

(** A splitter that delivers the headers and the code the responder
    leaves on the writer, and its bytes in two chunks. *)
Definition PipeHandlerToChannels (next : httpserver.Handler)
    (x : http.ResponseWriter) (r : http.Request) : PipeWriter.t :=
  let '(x', (code, _)) := httpserver.ServeHTTP next x r in
  {| PipeWriter.HeaderChannel :=
       {| PipeWriter.StatusCode := code;
          PipeWriter.Header := http.Header_ x' |};
     PipeWriter.BodyChannel := ["hel"; "lo"] |}.

Definition handler : CacheHandler :=
  {| Config := {| Config.StatusHeader := "X-Cache-Status" |};
     Next := responder |}.

Definition request (path : string) (accept : list string) : http.Request :=
  {| http.Method := "GET"; http.Host := "example.org";
     http.URL := {| url.Path := path; url.RawQuery := "a=1" |};
     http.Header := {[ "Accept-Encoding" := accept ]} |}.

Definition entry (public : bool) (vary : list string) : HttpCacheEntry :=
  {| isPublic := public;
     Expiration := 600;
     Request := {| Request.HeaderMap := {[ "Accept-Encoding" := ["gzip"] ]} |};
     Response :=
       {| Response.HeaderMap :=
            {[ "Content-Type" := ["text/plain"]; "Vary" := vary ]};
          Response.Body := Some O;
          Response.Code := 200 |} |}.

Definition writer : http.ResponseWriter :=
  {| http.Header_ := ∅; http.WriteHeader_ := []; http.Write_ := "" |}.

(** A world whose cache holds [stored] under [key], with the body
    [hello] behind handle 0. *)
Definition world (key : string) (stored : list HttpCacheEntry)
    (failure : string → option error) : World :=
  {| w := writer;
     cache := {| entries := {[ key := stored ]};
                 contents := [{| content_key := key;
                                 content_bytes := "hello";
                                 content_closed := true |}];
                 storage_failure := failure |};
     now := 0; channels := O; started := []; stdout := [];
     endChannel := None; returnedStatusCode := 0 |}.

Definition key : string := "GET example.org/hello?a=1".

(** A request with any method, path and raw query. *)
Definition request_of (method path raw : string) : http.Request :=
  {| http.Method := method; http.Host := "example.org";
     http.URL := {| url.Path := path; url.RawQuery := raw |};
     http.Header := {[ "Accept-Encoding" := ["gzip"] ]} |}.

(** The request for [/other] with a cookie and the same encoding. *)
Definition request_with_cookie : http.Request :=
  {| http.Method := "GET"; http.Host := "example.org";
     http.URL := {| url.Path := "/other"; url.RawQuery := "" |};
     http.Header := {[ "Accept-Encoding" := ["gzip"]; "Cookie" := ["id=1"] ]} |}.

(** The handler with its status header configured in lower case. *)
Definition handler_lower : CacheHandler :=
  {| Config := {| Config.StatusHeader := "x-cache-status" |};
     Next := responder |}.

(** The entry built for [request_with_cookie]: the stored response of
    [entry true ["Accept-Encoding"]] with the headers of that request. *)
Definition entry_with_cookie : HttpCacheEntry :=
  {| isPublic := true;
     Expiration := 600;
     Request :=
       {| Request.HeaderMap :=
            {[ "Accept-Encoding" := ["gzip"]; "Cookie" := ["id=1"] ]} |};
     Response := Response (entry true ["Accept-Encoding"]) |}.

(** A third request with the same encoding, from another client. *)
Definition request_with_agent : http.Request :=
  {| http.Method := "GET"; http.Host := "example.org";
     http.URL := {| url.Path := "/third"; url.RawQuery := "" |};
     http.Header :=
       {[ "Accept-Encoding" := ["gzip"]; "User-Agent" := ["curl"] ]} |}.

(** The key of the request for [/missing]. *)
Definition key_missing : string := "GET example.org/missing?a=1".

End Demo.

(** ** The handler *)

Section Handler.

Set Default Proof Using "Type".

(** From the Go standard library: [textproto.CanonicalMIMEHeaderKey],
    which [Header.Set] and [Header.Add] apply to the name they are
    given; [r.URL.Query().Encode()] as a function of the raw query; and
    the order in which a [range] loop visits a header map, which the
    language leaves open. *)
Variable CanonicalMIMEHeaderKey : string → string.
Variable Query_Encode : string → string.
Variable range : http_Header → list (string * list string).
Hypothesis range_visits : ∀ m, range m ≡ₚ map_to_list m.

(** From the other files of the package: the eligibility predicate, the
    cacheability policy and the splitter, which is given by what its
    channels deliver. *)
Variable shouldUseCache : http.Request → bool.
Variable getCacheableStatus :
  http.Request → Z → http_Header → Config.t → bool * Z * option error.
Variable PipeHandlerToChannels :
  httpserver.Handler → http.ResponseWriter → http.Request → PipeWriter.t.

(** [h.Set(key, value)] and [h.Add(key, value)] of [http.Header]: the
    name is put in canonical form; [Set] replaces the values under it by
    the one given, [Add] appends the one given to them. *)
Definition Header_Set (key value : string) (h : http_Header) : http_Header :=
  <[CanonicalMIMEHeaderKey key := [value]]> h.

Definition Header_Add (key value : string) (h : http_Header) : http_Header :=
  let key := CanonicalMIMEHeaderKey key in
  <[key := (default [] (h !! key) ++ [value])%list]> h.

(** Builds the cache key. *)
Definition getKey (r : http.Request) : string :=
  let key := http.Method r +:+ " " +:+ http.Host r +:+ url.Path (http.URL r) in
  let q := Query_Encode (url.RawQuery (http.URL r)) in
  if (0 <? String.length q)%nat then key +:+ "?" +:+ q else key.

(** [reflect.DeepEqual] on two values read from header maps: two nil
    slices are equal, a nil slice and a non-nil one are not, two non-nil
    slices are equal when they have the same elements in the same
    order. *)
Definition reflect_DeepEqual (a b : option (list string)) : bool :=
  bool_decide (a = b).

(** The loop of [matchesRequest] over the pieces of [vary[0]]. *)
Fixpoint matchesRequest_loop (stored current : http_Header)
    (pieces : list string) : bool :=
  match pieces with
  | [] => true
  | searchedHeader :: pieces' =>
      let searchedHeader := strings.TrimSpace searchedHeader in
      if negb (reflect_DeepEqual (stored !! searchedHeader)
                                 (current !! searchedHeader))
      then false
      else matchesRequest_loop stored current pieces'
  end.

(** Returns a function that given a previous response returns if it
    matches the current response.  [None] is the panic of [vary[0]] on a
    slice without elements. *)
Definition matchesRequest (r : http.Request) (entry : HttpCacheEntry)
    : option bool :=
  match Response.HeaderMap (Response entry) !! "Vary" with
  | None => Some true
  | Some vary =>
      match vary !! 0%nat with
      | None => None
      | Some vary0 =>
          Some (matchesRequest_loop (Request.HeaderMap (Request entry))
                  (http.Header r) (strings.Split vary0 ","))
      end
  end.

Definition AddStatusHeaderIfConfigured (h : CacheHandler) (status : string)
    : M unit :=
  if bool_decide (Config.StatusHeader (Config h) ≠ "")
  then w_set_Header (Header_Set (Config.StatusHeader (Config h)) status)
  else mret tt.

(** This prevents storing status header in cache.  The built-in [delete]
    takes the name as it is. *)
Definition RemoveStatusHeaderIfConfigured (h : CacheHandler)
    (headers : http_Header) : http_Header :=
  if bool_decide (Config.StatusHeader (Config h) ≠ "")
  then delete (Config.StatusHeader (Config h)) headers
  else headers.

(** Modelled from the spec: the storage engine is not in [handler.go].  A
    [Body] is a write-once sink paired with a repeatable-read source;
    [GetReader] gives a fresh reader, which delivers the bytes of the
    content from the start. *)
Definition Body_GetReader (body : nat) : M string :=
  s ← get;
  mret (from_option content_bytes "" (contents (cache s) !! body)).

(** [io.Copy(w, src)]: all the bytes of [src] are written to [w]. *)
Definition io_Copy (src : string) : M unit := w_Write src.

(** The two loops of [HandleCachedResponse]. *)
Definition add_values (k : string) (values : list string) (h : http_Header)
    : http_Header :=
  foldl (λ h v, Header_Add k v h) h values.

Definition add_headers (kvs : list (string * list string)) (h : http_Header)
    : http_Header :=
  foldl (λ h kv, add_values kv.1 kv.2 h) h kvs.

Definition HandleCachedResponse (handler : CacheHandler) (r : http.Request)
    (previous : HttpCacheEntry) : M Z :=
  AddStatusHeaderIfConfigured handler "hit";;
  w_set_Header
    (add_headers (range (Response.HeaderMap (Response previous))));;
  w_WriteHeader (Response.Code (Response previous));;
  match Response.Body (Response previous) with
  | Some body => src ← Body_GetReader body; io_Copy src
  | None => mret tt
  end;;
  mret (Response.Code (Response previous)).

(** Modelled from the spec: the storage engine is not in [handler.go].
    [NewContent(key)] opens an appendable, closable destination for a
    cache body blob and returns it, or returns an error and opens
    nothing. *)
Definition Cache_NewContent (key : string) : M (nat + error) :=
  s ← get;
  match storage_failure (cache s) key with
  | Some e => mret (inr e)
  | None =>
      put (set_cache
             {| entries := entries (cache s);
                contents := contents (cache s) ++
                  [{| content_key := key; content_bytes := "";
                      content_closed := false |}];
                storage_failure := storage_failure (cache s) |} s);;
      mret (inl (length (contents (cache s))))
  end.

Definition HandleNonCachedResponse (handler : CacheHandler)
    (r : http.Request) : M (option HttpCacheEntry * nat * option error) :=
  AddStatusHeaderIfConfigured handler "miss";;
  t ← time_Now;
  (* the entry under construction: private, one hour, the request's
     headers *)
  let entry_isPublic := false in
  let entry_Expiration := t + 1 * time_Hour in
  let entry_Request := {| Request.HeaderMap := http.Header r |} in
  endChannel ← make_chan;
  s ← get;
  let pipe := PipeHandlerToChannels (Next handler) (w s) r in
  (* Fetch from upstream in another thread *)
  go (go_handle pipe endChannel);;
  (* Wait until headers *)
  let headers := PipeWriter.HeaderChannel pipe in
  (* Check if the request is cacheable *)
  let '(isCacheable, expirationTime, err) :=
    getCacheableStatus r (PipeWriter.StatusCode headers)
      (PipeWriter.Header headers) (Config handler) in
  match err with
  | Some e => Println e;; mret (None, endChannel, Some e)
  | None =>
      if negb isCacheable then
        let entry :=
          {| isPublic := false;
             Expiration := entry_Expiration;
             Request := entry_Request;
             Response :=
               {| Response.HeaderMap :=
                    RemoveStatusHeaderIfConfigured handler
                      (PipeWriter.Header headers);
                  Response.Body := None;
                  Response.Code := PipeWriter.StatusCode headers |} |} in
        go (go_drain pipe);;
        mret (Some entry, endChannel, None)
      else
        (* if it is create a new content writer *)
        bodyWriter ← Cache_NewContent (getKey r);
        match bodyWriter with
        | inr e => Println e;; mret (None, endChannel, Some e)
        | inl bodyWriter =>
            (* Set entry fields *)
            let entry :=
              {| isPublic := true;
                 Expiration := expirationTime;
                 Request := entry_Request;
                 Response :=
                   {| Response.HeaderMap :=
                        RemoveStatusHeaderIfConfigured handler
                          (PipeWriter.Header headers);
                      Response.Body := Some bodyWriter;
                      Response.Code := PipeWriter.StatusCode headers |} |} in
            (* Create a new thread that will save the fetched bytes to
               the content *)
            go (go_save pipe bodyWriter);;
            mret (Some entry, endChannel, None)
        end
  end.

(** Modelled from the spec: the store is not in [handler.go].
    [GetOrSet(key, condition, handler)] is the get-or-populate primitive:
    [handler] receives the previous entry of [key] that [condition]
    accepts, or none, and returns a replacement entry or the signal to
    keep the existing value, plus an error.  An error is returned to the
    caller and nothing is kept for that attempt; a replacement takes the
    place of the previous entry, or is added when there was none.
    [matching] is the position of the first entry that [condition]
    accepts; a panic of [condition] is a panic of the call. *)
Fixpoint matching (condition : HttpCacheEntry → option bool)
    (stored : list HttpCacheEntry) : option (option nat) :=
  match stored with
  | [] => Some None
  | e :: stored' =>
      match condition e with
      | None => None
      | Some true => Some (Some O)
      | Some false =>
          match matching condition stored' with
          | Some at_ => Some (S <$> at_)
          | None => None
          end
      end
  end.

Definition Cache_entries (key : string) (c : Cache) : list HttpCacheEntry :=
  default [] (entries c !! key).

Definition Cache_commit (key : string) (at_ : option nat)
    (entry : HttpCacheEntry) (c : Cache) : Cache :=
  {| entries :=
       <[key := match at_ with
                | Some i => <[i := entry]> (Cache_entries key c)
                | None => (Cache_entries key c ++ [entry])%list
                end]> (entries c);
     contents := contents c;
     storage_failure := storage_failure c |}.

Definition Cache_GetOrSet (key : string)
    (condition : HttpCacheEntry → option bool)
    (handler : option HttpCacheEntry → M (option HttpCacheEntry * option error))
    : M (option error) :=
  s ← get;
  match matching condition (Cache_entries key (cache s)) with
  | None => panic
  | Some at_ =>
      let previous := at_ ≫= (Cache_entries key (cache s) !!.) in
      '(entry, err) ← handler previous;
      match err, entry with
      | Some e, _ => mret (Some e)
      | None, None => mret None
      | None, Some entry =>
          modify (λ s, set_cache (Cache_commit key at_ entry (cache s)) s);;
          mret None
      end
  end.

(** The closure that [ServeHTTP] passes to [GetOrSet] (lines 167-182).
    It assigns [endChannel] and [returnedStatusCode] of its caller.
    [ServeHTTP_func1_miss] is its first branch (lines 170-176). *)
Definition ServeHTTP_func1_miss (handler : CacheHandler) (r : http.Request)
    : M (option HttpCacheEntry * option error) :=
  '(newEntry, endChn, err) ← HandleNonCachedResponse handler r;
  match err with
  | Some e => mret (None, Some e)
  | None =>
      modify (set_endChannel (Some endChn));;
      match newEntry with
      | None => panic
      | Some newEntry =>
          modify (set_returnedStatusCode (Response.Code (Response newEntry)));;
          mret (Some newEntry, None)
      end
  end.

Definition ServeHTTP_func1 (handler : CacheHandler) (r : http.Request)
    (previous : option HttpCacheEntry)
    : M (option HttpCacheEntry * option error) :=
  match previous with
  | None => ServeHTTP_func1_miss handler r
  | Some previous =>
      if negb (isPublic previous) then ServeHTTP_func1_miss handler r
      else
        AddStatusHeaderIfConfigured handler "hit";;
        code ← HandleCachedResponse handler r previous;
        modify (set_returnedStatusCode code);;
        mret (None, None)
  end.

Definition ServeHTTP (handler : CacheHandler) (r : http.Request)
    : M (Z * option error) :=
  if negb (shouldUseCache r) then
    AddStatusHeaderIfConfigured handler "skip";;
    s ← get;
    let '(w', result) := httpserver.ServeHTTP (Next handler) (w s) r in
    put (set_w w' s);;
    mret result
  else
    modify (set_endChannel None);;
    (* If this is not updated means there was an error *)
    modify (set_returnedStatusCode http.StatusInternalServerError);;
    err ← Cache_GetOrSet (getKey r) (matchesRequest r)
            (ServeHTTP_func1 handler r);
    s ← get;
    match endChannel s with
    | Some ch => receive ch
    | None => mret tt
    end;;
    s ← get;
    mret (returnedStatusCode s, err).

(** For the statements: the writer once a status has been marked on it,
    the splitter that the miss path creates in a world, and what the
    policy answers to the headers received from it. *)
Definition marked (handler : CacheHandler) (status : string)
    (x : http.ResponseWriter) : http.ResponseWriter :=
  if bool_decide (Config.StatusHeader (Config handler) ≠ "")
  then {| http.Header_ :=
            Header_Set (Config.StatusHeader (Config handler)) status
              (http.Header_ x);
          http.WriteHeader_ := http.WriteHeader_ x;
          http.Write_ := http.Write_ x |}
  else x.

Definition miss_pipe (handler : CacheHandler) (r : http.Request) (s : World)
    : PipeWriter.t :=
  PipeHandlerToChannels (Next handler) (marked handler "miss" (w s)) r.

Definition miss_headers (handler : CacheHandler) (r : http.Request)
    (s : World) : PipeWriter.Headers :=
  PipeWriter.HeaderChannel (miss_pipe handler r s).

Definition miss_policy (handler : CacheHandler) (r : http.Request)
    (s : World) : bool * Z * option error :=
  getCacheableStatus r (PipeWriter.StatusCode (miss_headers handler r s))
    (PipeWriter.Header (miss_headers handler r s)) (Config handler).

(** The names that a Vary value lists. *)
Definition vary_names (vary0 : string) : list string :=
  map strings.TrimSpace (strings.Split vary0 ",").

(** The value list [h[k]], the nil slice being the empty list. *)
Definition values (h : http_Header) (k : string) : list string :=
  default [] (h !! k).

(** The previous entry that [GetOrSet] hands to the closure of
    [ServeHTTP] for the request [r]; [None] when the matcher panics. *)
Definition previous_entry (r : http.Request) (s : World)
    : option (option HttpCacheEntry) :=
  at_ ← matching (matchesRequest r) (Cache_entries (getKey r) (cache s));
  Some (at_ ≫= (Cache_entries (getKey r) (cache s) !!.)).

(** The closure takes the miss path: line 168. *)
Definition takes_miss_path (previous : option HttpCacheEntry) : bool :=
  match previous with
  | None => true
  | Some previous => negb (isPublic previous)
  end.

(** The miss path meets the error [e]: from the policy, or from the
    opening of the content once the policy has found the response
    cacheable. *)
Definition miss_fails (handler : CacheHandler) (r : http.Request)
    (s : World) (e : error) : Prop :=
  (∃ isCacheable expirationTime,
     miss_policy handler r s = (isCacheable, expirationTime, Some e)) ∨
  (∃ expirationTime,
     miss_policy handler r s = (true, expirationTime, None) ∧
     storage_failure (cache s) (getKey r) = Some e).

(** The bytes that a fresh reader of the body of [previous] delivers. *)
Definition stored_body (previous : HttpCacheEntry) (s : World) : string :=
  match Response.Body (Response previous) with
  | Some body => from_option content_bytes "" (contents (cache s) !! body)
  | None => ""
  end.

(** The values that the two loops of the hit path append under the
    name [k'], when they visit the stored headers in the order [kvs]. *)
Definition replayed (k' : string) (kvs : list (string * list string))
    : list string :=
  flat_map (λ kv, if decide (CanonicalMIMEHeaderKey kv.1 = k')
                  then kv.2 else []) kvs.

(** The world after lines 88-105 of the miss path: the writer has the
    miss mark, [endChannel] is made, and the goroutine that runs
    [pipe.handle()] is started. *)
Definition miss_started (handler : CacheHandler) (r : http.Request)
    (s : World) : World :=
  set_started
    (started s ++ [go_handle (miss_pipe handler r s) (channels s)])
    (set_channels (S (channels s))
       (set_w (marked handler "miss" (w s)) s)).

(** That world once [NewContent] has opened a content for the key. *)
Definition miss_opened (handler : CacheHandler) (r : http.Request)
    (s : World) : World :=
  set_cache
    {| entries := entries (cache s);
       contents := contents (cache s) ++
         [{| content_key := getKey r; content_bytes := "";
             content_closed := false |}];
       storage_failure := storage_failure (cache s) |}
    (miss_started handler r s).

(** The entry that the miss path builds from the headers it received. *)
Definition miss_entry (handler : CacheHandler) (r : http.Request)
    (s : World) (public : bool) (expiration : Z) (body : option nat)
    : HttpCacheEntry :=
  {| isPublic := public;
     Expiration := expiration;
     Request := {| Request.HeaderMap := http.Header r |};
     Response :=
       {| Response.HeaderMap :=
            RemoveStatusHeaderIfConfigured handler
              (PipeWriter.Header (miss_headers handler r s));
          Response.Body := body;
          Response.Code := PipeWriter.StatusCode (miss_headers handler r s) |} |}.

(** The string has a space in it. *)
Fixpoint has_space (s : string) : bool :=
  match s with
  | EmptyString => false
  | String c s' => Ascii.eqb c " " || has_space s'
  end.

(** ** Properties *)

(** *** The key builder *)

(** C8.  Two requests with the same method, host, path and encoded query
    have the same key, whatever their headers; [getKey] is a total
    function of the request. *)
Theorem getKey_ignores_headers (r1 r2 : http.Request) :
  http.Method r1 = http.Method r2 →
  http.Host r1 = http.Host r2 →
  url.Path (http.URL r1) = url.Path (http.URL r2) →
  Query_Encode (url.RawQuery (http.URL r1))
    = Query_Encode (url.RawQuery (http.URL r2)) →
  getKey r1 = getKey r2.
Proof.
  intros Hm Hh Hp Hq. unfold getKey. by rewrite Hm, Hh, Hp, Hq.
Qed.

(** *** The matcher *)

Lemma reflect_DeepEqual_true (a b : option (list string)) :
  reflect_DeepEqual a b = true ↔ a = b.
Proof. unfold reflect_DeepEqual. apply bool_decide_eq_true. Qed.

(** The loop accepts exactly when every listed header has the same
    values on both sides. *)
Lemma matchesRequest_loop_true (stored current : http_Header)
    (pieces : list string) :
  matchesRequest_loop stored current pieces = true ↔
  Forall (λ name, stored !! name = current !! name)
         (map strings.TrimSpace pieces).
Proof.
  induction pieces as [|p pieces IH]; simpl.
  - split; [constructor | done].
  - rewrite Forall_cons, <- IH.
    destruct (reflect_DeepEqual _ _) eqn:E; simpl.
    + apply reflect_DeepEqual_true in E.
      split; [by intros ? | by intros [_ ?]].
    + split; [done |]. intros [E' _].
      apply reflect_DeepEqual_true in E'. by rewrite E in E'.
Qed.

Lemma matchesRequest_no_Vary (r : http.Request) (entry : HttpCacheEntry) :
  Response.HeaderMap (Response entry) !! "Vary" = None →
  matchesRequest r entry = Some true.
Proof. intros H. unfold matchesRequest. by rewrite H. Qed.

(** C10.  Only the first value of the stored Vary list is read: whatever
    the later values [rest] are, the predicate returns, and it accepts
    exactly when every name listed in the first value has the same
    values in the stored request and in the current one. *)
Theorem matchesRequest_first_Vary_value (r : http.Request)
    (entry : HttpCacheEntry) (vary0 : string) (rest : list string) :
  Response.HeaderMap (Response entry) !! "Vary" = Some (vary0 :: rest) →
  ∃ b : bool,
    matchesRequest r entry = Some b ∧
    (b = true ↔
     Forall (λ name, Request.HeaderMap (Request entry) !! name
                     = http.Header r !! name)
            (vary_names vary0)).
Proof.
  intros H. unfold matchesRequest. rewrite H. simpl.
  eexists. split; [reflexivity |]. apply matchesRequest_loop_true.
Qed.

(** C1, at an entry whose Vary header is there without a value: the
    predicate does not return, [vary[0]] panics. *)
Theorem matchesRequest_Vary_without_value :
  matchesRequest (Demo.request "/hello" ["gzip"]) (Demo.entry true []) = None.
Proof. reflexivity. Qed.

(** *** The goroutines of the miss path *)

(** The facts about the goroutines do not depend on what the handler is
    given. *)
Ltac without_parameters :=
  clear CanonicalMIMEHeaderKey Query_Encode range range_visits
        shouldUseCache getCacheableStatus PipeHandlerToChannels.

Lemma append_assoc (a b c : string) : (a +:+ b) +:+ c = a +:+ b +:+ c.
Proof.
  induction a as [|x a IH]; [done |].
  change (String x ((a +:+ b) +:+ c) = String x (a +:+ b +:+ c)).
  by f_equal.
Qed.

Lemma append_empty_r (a : string) : a +:+ "" = a.
Proof.
  induction a as [|x a IH]; [done |].
  change (String x (a +:+ "") = String x a). by f_equal.
Qed.

(** When the response is not cacheable the consumer only receives: the
    content is never written and never closed. *)
Lemma MissPath_drain_writes_nothing (sc : MissPath.scenario)
    (s : MissPath.state) :
  MissPath.decides sc = MissPath.drain →
  MissPath.reachable sc s →
  MissPath.written s = "" ∧ MissPath.closed s = false.
Proof.
  without_parameters. intros Hd Hr.
  cut (MissPath.written s = "" ∧ MissPath.closed s = false ∧
       (∀ c, MissPath.consumer s ≠ Some (MissPath.consumer_write c)) ∧
       MissPath.consumer s ≠ Some MissPath.consumer_close); [tauto |].
  pattern s. eapply rtc_ind_r; [| | exact Hr]; [done |].
  clear s Hr. intros s1 s2 _ Hstep (Hw & Hc & Hnw & Hnc).
  inversion Hstep; subst; simpl in *;
    unfold MissPath.received, MissPath.after_last;
    try rewrite Hd; try done.
  - by destruct (Hnw content).
Qed.

(** When the response is cacheable, the bytes written, the chunk in
    hand and the chunks to come make up the body at every moment; the
    consumer leaves its loop only after the splitter has closed the body
    channel, and is done only after it has closed the content. *)
Lemma MissPath_save_invariant (sc : MissPath.scenario) (s : MissPath.state) :
  MissPath.decides sc = MissPath.save →
  MissPath.reachable sc s →
  MissPath.written s +:+ MissPath.pending (MissPath.consumer s)
    +:+ MissPath.join (MissPath.unsent sc (MissPath.handle s))
    = MissPath.join (MissPath.chunks sc) ∧
  (MissPath.body_closed s = true →
   MissPath.unsent sc (MissPath.handle s) = []) ∧
  (MissPath.consumer s = Some MissPath.consumer_close ∨
   MissPath.consumer s = Some MissPath.consumer_done →
   MissPath.body_closed s = true) ∧
  (MissPath.consumer s = Some MissPath.consumer_done →
   MissPath.closed s = true).
Proof.
  without_parameters. intros Hd Hr.
  pattern s. eapply rtc_ind_r; [| | exact Hr]; clear s Hr.
  - simpl. repeat split; try done. intros [?|?]; done.
  - intros s1 s2 _ Hstep (Hsum & Hbc & Hcl & Hdone).
    inversion Hstep; subst; simpl in *;
      unfold MissPath.received, MissPath.after_last in *;
      try rewrite Hd in *; simpl in *;
      repeat split; try done; try tauto; try (intros [?|?]; done);
      try (intros [?|?]; tauto).
    + intros Hb. by specialize (Hbc Hb).
    + by rewrite append_assoc.
Qed.

(** *** The miss path *)

Lemma AddStatusHeaderIfConfigured_run (handler : CacheHandler)
    (status : string) (s : World) :
  AddStatusHeaderIfConfigured handler status s
  = Returns tt (set_w (marked handler status (w s)) s).
Proof.
  unfold AddStatusHeaderIfConfigured, marked.
  destruct (bool_decide _); [reflexivity |].
  destruct s as [[] ? ? ? ? ? ? ?]; reflexivity.
Qed.

Ltac run_miss_path :=
  unfold HandleNonCachedResponse, mbind, M_bind;
  rewrite AddStatusHeaderIfConfigured_run; simpl.

Ltac use_policy H :=
  unfold miss_policy, miss_headers, miss_pipe in H; rewrite H; simpl.

Lemma RemoveStatusHeaderIfConfigured_lookup (handler : CacheHandler)
    (headers : http_Header) :
  Config.StatusHeader (Config handler) ≠ "" →
  RemoveStatusHeaderIfConfigured handler headers
    !! Config.StatusHeader (Config handler) = None.
Proof.
  intros H. unfold RemoveStatusHeaderIfConfigured.
  rewrite bool_decide_eq_true_2 by done. apply lookup_delete_eq.
Qed.

(** What stands under any other name is left as it was. *)
Lemma RemoveStatusHeaderIfConfigured_other (handler : CacheHandler)
    (headers : http_Header) (k : string) :
  k ≠ Config.StatusHeader (Config handler) →
  RemoveStatusHeaderIfConfigured handler headers !! k = headers !! k.
Proof.
  intros Hk. unfold RemoveStatusHeaderIfConfigured.
  destruct (bool_decide _); [| done]. by rewrite lookup_delete_ne.
Qed.

Lemma RemoveStatusHeaderIfConfigured_unset (handler : CacheHandler)
    (headers : http_Header) :
  Config.StatusHeader (Config handler) = "" →
  RemoveStatusHeaderIfConfigured handler headers = headers.
Proof.
  intros H. unfold RemoveStatusHeaderIfConfigured.
  rewrite bool_decide_eq_false_2; [done |]. by intros Hne.
Qed.

(** The cacheable branch of the miss path (lines 131-156), for a policy
    that answers cacheable until [expirationTime] and a content that
    opens: a content is opened for the key of the request, and the miss
    path returns a public entry with that expiration, the upstream code
    and the content as its body.  Its headers are the received ones,
    name by name, outside the configured status header and its canonical
    form; a status header configured under its canonical name is not
    among them.  The goroutine that saves the body has been started and
    not waited for; once it is done, the content holds the chunks of the
    body channel in order and is closed. *)
Lemma miss_cacheable (handler : CacheHandler) (r : http.Request)
    (s : World) (expirationTime : Z) :
  miss_policy handler r s = (true, expirationTime, None) →
  storage_failure (cache s) (getKey r) = None →
  ∃ (entry : HttpCacheEntry) (s' : World),
    HandleNonCachedResponse handler r s
      = Returns (Some entry, channels s, None) s' ∧
    isPublic entry = true ∧
    Expiration entry = expirationTime ∧
    Response.Code (Response entry)
      = PipeWriter.StatusCode (miss_headers handler r s) ∧
    (Config.StatusHeader (Config handler) ≠ "" →
     CanonicalMIMEHeaderKey (Config.StatusHeader (Config handler))
       = Config.StatusHeader (Config handler) →
     Response.HeaderMap (Response entry)
       !! CanonicalMIMEHeaderKey (Config.StatusHeader (Config handler))
     = None) ∧
    (∀ k, k ≠ Config.StatusHeader (Config handler) →
          k ≠ CanonicalMIMEHeaderKey (Config.StatusHeader (Config handler)) →
          Response.HeaderMap (Response entry) !! k
          = PipeWriter.Header (miss_headers handler r s) !! k) ∧
    (Config.StatusHeader (Config handler) = "" →
     Response.HeaderMap (Response entry)
     = PipeWriter.Header (miss_headers handler r s)) ∧
    Response.Body (Response entry) = Some (length (contents (cache s))) ∧
    contents (cache s')
      = (contents (cache s) ++
         [{| content_key := getKey r; content_bytes := "";
             content_closed := false |}])%list ∧
    entries (cache s') = entries (cache s) ∧
    started s' = (started s ++
                  [go_handle (miss_pipe handler r s) (channels s);
                   go_save (miss_pipe handler r s)
                     (length (contents (cache s)))])%list ∧
    ∀ st : MissPath.state,
      MissPath.reachable
        {| MissPath.chunks := PipeWriter.BodyChannel (miss_pipe handler r s);
           MissPath.decides := MissPath.save |} st →
      MissPath.consumer st = Some MissPath.consumer_done →
      MissPath.written st
        = MissPath.join (PipeWriter.BodyChannel (miss_pipe handler r s)) ∧
      MissPath.closed st = true.
Proof.
  intros H Hs. do 2 eexists. split.
  { run_miss_path. use_policy H.
    unfold Cache_NewContent, mbind, M_bind. simpl. rewrite Hs. reflexivity. }
  simpl. do 3 (split; [reflexivity |]).
  split.
  { intros Hname Hcanon. rewrite Hcanon.
    by apply RemoveStatusHeaderIfConfigured_lookup. }
  split.
  { intros k Hk _. by apply RemoveStatusHeaderIfConfigured_other. }
  split; [by apply RemoveStatusHeaderIfConfigured_unset |].
  repeat (split; [first [reflexivity | by rewrite <- app_assoc] |]).
  intros st Hst Hdone.
  destruct (λ Hd, MissPath_save_invariant _ st Hd Hst)
    as (Hsum & Hbc & Hcl & Hclosed); [done |].
  split; [| by apply Hclosed].
  rewrite Hdone in Hsum. simpl in Hsum.
  rewrite (Hbc (Hcl (or_intror Hdone))) in Hsum. simpl in Hsum.
  by rewrite append_empty_r in Hsum.
Qed.

(** The miss path always returns: an entry and no error, or an error and
    no entry.  It leaves the writer with the miss mark and nothing else,
    and does not touch the variables of [ServeHTTP]. *)
Lemma HandleNonCachedResponse_returns (handler : CacheHandler)
    (r : http.Request) (s : World) :
  ∃ entry err s',
    HandleNonCachedResponse handler r s = Returns (entry, channels s, err) s' ∧
    (err = None ↔ is_Some entry) ∧
    (∀ e, entry = Some e →
       Response.HeaderMap (Response e)
       = RemoveStatusHeaderIfConfigured handler
           (PipeWriter.Header (miss_headers handler r s))) ∧
    w s' = marked handler "miss" (w s) ∧
    endChannel s' = endChannel s ∧
    returnedStatusCode s' = returnedStatusCode s.
Proof.
  destruct (miss_policy handler r s) as [[isCacheable exp] [e|]] eqn:H;
    [| destruct isCacheable;
       [destruct (storage_failure (cache s) (getKey r)) as [e|] eqn:Hs |]];
    do 3 eexists;
    (split;
     [run_miss_path; use_policy H;
      unfold Cache_NewContent, mbind, M_bind; simpl;
      try rewrite Hs; reflexivity |]);
    simpl; repeat split; try done;
    try (by intros [? ?]); try (by intros ? [= <-]); by eexists.
Qed.

(** With a status header configured under its canonical name, the miss
    path returns, and an entry that it returns, public or private, has
    no value for that header in its response headers. *)
Lemma miss_entry_has_no_status_header (handler : CacheHandler)
    (r : http.Request) (s : World) :
  Config.StatusHeader (Config handler) ≠ "" →
  CanonicalMIMEHeaderKey (Config.StatusHeader (Config handler))
    = Config.StatusHeader (Config handler) →
  ∃ entry endChn err s',
    HandleNonCachedResponse handler r s = Returns (entry, endChn, err) s' ∧
    ∀ e, entry = Some e →
      Response.HeaderMap (Response e)
        !! CanonicalMIMEHeaderKey (Config.StatusHeader (Config handler))
      = None.
Proof.
  intros Hname Hcanon.
  destruct (HandleNonCachedResponse_returns handler r s)
    as (entry & err & s' & Hrun & _ & Hh & _).
  exists entry, (channels s), err, s'. split; [exact Hrun |].
  intros e He. rewrite (Hh e He), Hcanon.
  by apply RemoveStatusHeaderIfConfigured_lookup.
Qed.

(** With a status header configured under a name that is not in
    canonical form, an entry that the miss path returns keeps what was
    received under the canonical form of the name, which is where
    [Header.Set] put the mark. *)
Lemma miss_entry_keeps_canonical_name (handler : CacheHandler)
    (r : http.Request) (s : World) :
  CanonicalMIMEHeaderKey (Config.StatusHeader (Config handler))
    ≠ Config.StatusHeader (Config handler) →
  ∃ entry endChn err s',
    HandleNonCachedResponse handler r s = Returns (entry, endChn, err) s' ∧
    ∀ e, entry = Some e →
      Response.HeaderMap (Response e)
        !! CanonicalMIMEHeaderKey (Config.StatusHeader (Config handler))
      = PipeWriter.Header (miss_headers handler r s)
        !! CanonicalMIMEHeaderKey (Config.StatusHeader (Config handler)).
Proof.
  intros Hcanon.
  destruct (HandleNonCachedResponse_returns handler r s)
    as (entry & err & s' & Hrun & _ & Hh & _).
  exists entry, (channels s), err, s'. split; [exact Hrun |].
  intros e He. rewrite (Hh e He).
  by apply RemoveStatusHeaderIfConfigured_other.
Qed.

(** *** The hit path *)

Lemma marked_WriteHeader (handler : CacheHandler) (status : string)
    (x : http.ResponseWriter) :
  http.WriteHeader_ (marked handler status x) = http.WriteHeader_ x.
Proof. unfold marked. by destruct (bool_decide _). Qed.

Lemma marked_Write (handler : CacheHandler) (status : string)
    (x : http.ResponseWriter) :
  http.Write_ (marked handler status x) = http.Write_ x.
Proof. unfold marked. by destruct (bool_decide _). Qed.

Lemma marked_twice (handler : CacheHandler) (status : string)
    (x : http.ResponseWriter) :
  marked handler status (marked handler status x) = marked handler status x.
Proof.
  unfold marked. destruct (bool_decide _); [| done]. simpl.
  unfold Header_Set. by rewrite insert_insert_eq.
Qed.

(** The hit path always returns the stored code, after it has added the
    stored headers to those of the writer, written the stored code and
    written the bytes of the stored body. *)
Lemma HandleCachedResponse_returns (handler : CacheHandler)
    (r : http.Request) (previous : HttpCacheEntry) (s : World) :
  ∃ s',
    HandleCachedResponse handler r previous s
      = Returns (Response.Code (Response previous)) s' ∧
    http.Header_ (w s')
      = add_headers (range (Response.HeaderMap (Response previous)))
          (http.Header_ (marked handler "hit" (w s))) ∧
    http.WriteHeader_ (w s')
      = (http.WriteHeader_ (w s) ++ [Response.Code (Response previous)])%list ∧
    http.Write_ (w s') = http.Write_ (w s) +:+ stored_body previous s ∧
    cache s' = cache s ∧ started s' = started s ∧
    endChannel s' = endChannel s ∧
    returnedStatusCode s' = returnedStatusCode s.
Proof.
  unfold HandleCachedResponse, mbind, M_bind, stored_body.
  rewrite AddStatusHeaderIfConfigured_run. simpl.
  destruct (Response.Body (Response previous)) as [body|]; simpl;
    (eexists; split; [reflexivity |]); simpl;
    rewrite marked_WriteHeader, marked_Write, ?append_empty_r; done.
Qed.

Lemma values_Header_Add (k v : string) (h : http_Header) (k' : string) :
  values (Header_Add k v h) k'
  = if decide (CanonicalMIMEHeaderKey k = k')
    then (values h k' ++ [v])%list else values h k'.
Proof.
  unfold values, Header_Add. case_decide as Hk.
  - subst k'. by rewrite lookup_insert_eq.
  - by rewrite lookup_insert_ne.
Qed.

Lemma values_add_values (k : string) (vs : list string) (h : http_Header)
    (k' : string) :
  values (add_values k vs h) k'
  = if decide (CanonicalMIMEHeaderKey k = k')
    then (values h k' ++ vs)%list else values h k'.
Proof.
  unfold add_values. revert h.
  induction vs as [|v vs IH]; intros h; simpl.
  - case_decide; by rewrite ?app_nil_r.
  - rewrite IH, values_Header_Add. case_decide; [| done].
    by rewrite <- app_assoc.
Qed.

Lemma values_add_headers (kvs : list (string * list string))
    (h : http_Header) (k' : string) :
  values (add_headers kvs h) k' = (values h k' ++ replayed k' kvs)%list.
Proof.
  unfold add_headers, replayed. revert h.
  induction kvs as [|[k vs] kvs IH]; intros h; simpl.
  - by rewrite app_nil_r.
  - rewrite IH, values_add_values. case_decide; [| done].
    by rewrite <- app_assoc.
Qed.

(** Every visited header leaves its values, in their order, as one block
    of what is appended under its canonical name. *)
Lemma replayed_block (k : string) (vs : list string)
    (kvs : list (string * list string)) :
  (k, vs) ∈ kvs →
  ∃ pre post,
    replayed (CanonicalMIMEHeaderKey k) kvs = (pre ++ vs ++ post)%list.
Proof.
  intros Hin. apply list_elem_of_split in Hin as (l1 & l2 & ->).
  exists (replayed (CanonicalMIMEHeaderKey k) l1),
         (replayed (CanonicalMIMEHeaderKey k) l2).
  unfold replayed. rewrite flat_map_app. simpl.
  by rewrite decide_True.
Qed.

Lemma replayed_none (k' : string) (kvs : list (string * list string)) :
  (∀ kv, kv ∈ kvs → CanonicalMIMEHeaderKey kv.1 ≠ k') →
  replayed k' kvs = [].
Proof.
  induction kvs as [|kv kvs IH]; intros H; simpl; [done |].
  rewrite decide_False by (apply H; left).
  apply IH. intros kv' Hin. apply H. by right.
Qed.

(** When no other visited name has the same canonical form, exactly its
    values are appended. *)
Lemma replayed_exact (k : string) (vs : list string)
    (kvs : list (string * list string)) :
  NoDup kvs.*1 →
  (k, vs) ∈ kvs →
  (∀ kv, kv ∈ kvs →
     CanonicalMIMEHeaderKey kv.1 = CanonicalMIMEHeaderKey k → kv.1 = k) →
  replayed (CanonicalMIMEHeaderKey k) kvs = vs.
Proof.
  induction kvs as [|[k0 vs0] kvs IH]; intros Hnd Hin Hother.
  - by apply elem_of_nil in Hin.
  - simpl in *. apply NoDup_cons in Hnd as [Hfresh Hnd].
    apply elem_of_cons in Hin as [[= <- <-] | Hin].
    + rewrite decide_True by done.
      rewrite replayed_none; [by rewrite app_nil_r |].
      intros [k1 vs1] Hin1 Heq. simpl in Heq.
      assert (k1 = k) as -> by (apply (Hother (k1, vs1)); [by right | done]).
      apply Hfresh. apply list_elem_of_fmap. by exists (k, vs1).
    + rewrite decide_False.
      * apply IH; [done | done |]. intros kv Hkv. apply Hother. by right.
      * intros Heq.
        assert (k0 = k) as -> by (apply (Hother (k0, vs0)); [left | done]).
        apply Hfresh. apply list_elem_of_fmap. by exists (k, vs).
Qed.

(** *** The orchestrator *)

(** C3.  The closure handed to [GetOrSet]: when the previous entry is
    absent or private, the miss path runs and the closure returns its
    entry and its error, and the writer has been given the miss mark and
    nothing else, so nothing of a private entry is replayed; when the
    previous entry is public, the hit path runs on the writer and the
    closure returns no entry and no error. *)
Theorem closure_dispatch (handler : CacheHandler) (r : http.Request)
    (previous : option HttpCacheEntry) (s : World) :
  if takes_miss_path previous then
    ∃ entry endChn err s1 s2,
      HandleNonCachedResponse handler r s = Returns (entry, endChn, err) s1 ∧
      ServeHTTP_func1 handler r previous s = Returns (entry, err) s2 ∧
      w s2 = marked handler "miss" (w s) ∧
      cache s2 = cache s1 ∧ started s2 = started s1
  else
    ∃ p code s1,
      previous = Some p ∧ isPublic p = true ∧
      HandleCachedResponse handler r p (set_w (marked handler "hit" (w s)) s)
        = Returns code s1 ∧
      ServeHTTP_func1 handler r previous s
        = Returns (None, None) (set_returnedStatusCode code s1).
Proof.
  destruct (takes_miss_path previous) eqn:Hp.
  - destruct (HandleNonCachedResponse_returns handler r s)
      as (entry & err & s1 & Hrun & Hiff & _ & Hw & _).
    exists entry, (channels s), err, s1.
    assert (∃ s2,
      ServeHTTP_func1_miss handler r s = Returns (entry, err) s2 ∧
      w s2 = w s1 ∧ cache s2 = cache s1 ∧ started s2 = started s1)
      as (s2 & Hmiss & Hw2 & Hc2 & Hs2).
    { unfold ServeHTTP_func1_miss, mbind, M_bind. rewrite Hrun. simpl.
      destruct err as [e|].
      - destruct entry as [x|].
        + destruct Hiff as [_ Hiff]. by specialize (Hiff (mk_is_Some _ _ eq_refl)).
        + by eexists.
      - destruct entry as [x|].
        + by eexists.
        + destruct Hiff as [Hiff _]. by destruct (Hiff eq_refl). }
    exists s2. split; [exact Hrun |]. split.
    + unfold ServeHTTP_func1. destruct previous as [p|]; [| exact Hmiss].
      simpl in Hp. rewrite Hp. exact Hmiss.
    + by rewrite Hw2.
  - destruct previous as [p|]; [| done]. simpl in Hp.
    apply negb_false_iff in Hp.
    destruct (HandleCachedResponse_returns handler r p
                (set_w (marked handler "hit" (w s)) s))
      as (s1 & Hrun & _).
    exists p, (Response.Code (Response p)), s1.
    repeat split; try done.
    unfold ServeHTTP_func1. rewrite Hp. simpl.
    unfold mbind, M_bind. rewrite AddStatusHeaderIfConfigured_run.
    by rewrite Hrun.
Qed.

(** [ServeHTTP] when the closure returns no entry and leaves
    [endChannel] nil: nothing is committed, nothing is waited for, and
    the code and the error of the closure are returned. *)
Lemma ServeHTTP_without_entry (handler : CacheHandler) (r : http.Request)
    (s : World) (previous : option HttpCacheEntry) (err : option error)
    (s1 : World) :
  shouldUseCache r = true →
  previous_entry r s = Some previous →
  ServeHTTP_func1 handler r previous
    (set_returnedStatusCode http.StatusInternalServerError
       (set_endChannel None s)) = Returns (None, err) s1 →
  endChannel s1 = None →
  ServeHTTP handler r s = Returns (returnedStatusCode s1, err) s1.
Proof.
  intros Huse Hprev Hrun Hend.
  unfold ServeHTTP. rewrite Huse. simpl.
  unfold previous_entry in Hprev.
  unfold Cache_GetOrSet, mbind, M_bind, get in *. simpl in *.
  destruct (matching _ _) as [at_|]; [| done].
  simpl in Hprev. injection Hprev as Hprev.
  rewrite Hprev, Hrun.
  destruct err as [e|]; simpl; by rewrite Hend.
Qed.

Lemma miss_fails_returns (handler : CacheHandler) (r : http.Request)
    (s : World) (e : error) :
  miss_fails handler r s e →
  ∃ s1,
    HandleNonCachedResponse handler r s
      = Returns (None, channels s, Some e) s1 ∧
    cache s1 = cache s ∧ endChannel s1 = endChannel s ∧
    returnedStatusCode s1 = returnedStatusCode s.
Proof.
  intros [(c & exp & H) | (exp & H & Hs)];
    (eexists; split;
     [run_miss_path; use_policy H;
      unfold Cache_NewContent, mbind, M_bind; simpl;
      try rewrite Hs; reflexivity |]); done.
Qed.

(** A miss that returns an entry, seen from [ServeHTTP]: the entry takes
    its place in the cache, the code of the entry is returned, the
    goroutine that ran [pipe.handle()] has been waited for, and the
    goroutine that consumes the body is still among those started. *)
Lemma ServeHTTP_miss_with_entry (handler : CacheHandler) (r : http.Request)
    (s : World) (at_ : option nat) (isCacheable : bool)
    (expirationTime : Z) :
  shouldUseCache r = true →
  matching (matchesRequest r) (Cache_entries (getKey r) (cache s))
    = Some at_ →
  takes_miss_path (at_ ≫= (Cache_entries (getKey r) (cache s) !!.)) = true →
  miss_policy handler r s = (isCacheable, expirationTime, None) →
  storage_failure (cache s) (getKey r) = None →
  ∃ code entry s',
    ServeHTTP handler r s = Returns (code, None) s' ∧
    Cache_entries (getKey r) (cache s')
      = match at_ with
        | Some i => <[i := entry]> (Cache_entries (getKey r) (cache s))
        | None => (Cache_entries (getKey r) (cache s) ++ [entry])%list
        end ∧
    Response.Code (Response entry) = code ∧
    isPublic entry = isCacheable ∧
    started s'
      = (filter (λ g, sends_on (channels s) g = false) (started s) ++
         [if isCacheable
          then go_save (miss_pipe handler r s) (length (contents (cache s)))
          else go_drain (miss_pipe handler r s)])%list.
Proof.
  intros Huse Hat Hmiss Hpolicy Hstorage.
  unfold ServeHTTP. rewrite Huse. simpl.
  unfold Cache_GetOrSet, mbind, M_bind, get in *. simpl. rewrite Hat.
  match goal with
  | |- context [ServeHTTP_func1 handler r ?previous] =>
      assert (ServeHTTP_func1 handler r previous
              = ServeHTTP_func1_miss handler r) as ->
  end.
  { unfold ServeHTTP_func1.
    destruct (option_bind _ _ _ at_) as [p|]; [| done].
    simpl in Hmiss. by rewrite Hmiss. }
  unfold ServeHTTP_func1_miss, mbind, M_bind.
  run_miss_path. use_policy Hpolicy.
  destruct isCacheable; simpl;
    unfold Cache_NewContent, mbind, M_bind; simpl; try rewrite Hstorage;
    simpl; unfold Cache_entries; simpl;
    (do 3 eexists; split; [reflexivity |]); simpl;
    rewrite lookup_insert_eq; simpl;
    (split; [reflexivity |]); simpl; (do 2 (split; [reflexivity |]));
    rewrite !filter_app, !filter_cons, !filter_nil; simpl;
    rewrite Nat.eqb_refl; simpl;
    by rewrite app_nil_r.
Qed.

(** [ServeHTTP] on a miss that the policy finds not cacheable: the
    private entry goes to the store. *)
Lemma ServeHTTP_miss_not_cacheable_run (handler : CacheHandler)
    (r : http.Request) (s : World) (at_ : option nat) (expirationTime : Z) :
  shouldUseCache r = true →
  matching (matchesRequest r) (Cache_entries (getKey r) (cache s))
    = Some at_ →
  takes_miss_path (at_ ≫= (Cache_entries (getKey r) (cache s) !!.)) = true →
  miss_policy handler r s = (false, expirationTime, None) →
  ∃ s',
    ServeHTTP handler r s
      = Returns (PipeWriter.StatusCode (miss_headers handler r s), None) s' ∧
    Cache_entries (getKey r) (cache s')
      = (let e := miss_entry handler r s false (now s + 1 * time_Hour) None in
         match at_ with
         | Some i => <[i := e]> (Cache_entries (getKey r) (cache s))
         | None => (Cache_entries (getKey r) (cache s) ++ [e])%list
         end) ∧
    contents (cache s') = contents (cache s).
Proof.
  intros Huse Hat Hmiss Hpolicy.
  unfold ServeHTTP. rewrite Huse. simpl.
  unfold Cache_GetOrSet, mbind, M_bind, get in *. simpl. rewrite Hat.
  match goal with
  | |- context [ServeHTTP_func1 handler r ?previous] =>
      assert (ServeHTTP_func1 handler r previous
              = ServeHTTP_func1_miss handler r) as ->
  end.
  { unfold ServeHTTP_func1.
    destruct (option_bind _ _ _ at_) as [p|]; [| done].
    simpl in Hmiss. by rewrite Hmiss. }
  unfold ServeHTTP_func1_miss, mbind, M_bind.
  run_miss_path. use_policy Hpolicy.
  unfold Cache_entries; simpl.
  (eexists; split; [reflexivity |]); simpl.
  rewrite lookup_insert_eq; simpl; by split.
Qed.

(** C4, amended.  A miss that the policy finds not cacheable.  The miss
    path returns a private entry with the upstream code and no body; its
    headers are the received ones, name by name, outside the configured
    status header and its canonical form, and a status header configured
    under its canonical name is not among them.  The miss path leaves
    the cache as it was, so no content is opened; the goroutine that
    drains the body channel has been started and not waited for, and it
    never writes to a content.  The entry itself goes to the store:
    [ServeHTTP] returns the upstream code, and the store then holds the
    private entry for the key of the request, in the place of the
    previous entry when there was one, and the same contents as
    before. *)
Theorem miss_not_cacheable (handler : CacheHandler) (r : http.Request)
    (s : World) (expirationTime : Z) :
  miss_policy handler r s = (false, expirationTime, None) →
  ∃ (entry : HttpCacheEntry) (s1 : World),
    HandleNonCachedResponse handler r s
      = Returns (Some entry, channels s, None) s1 ∧
    isPublic entry = false ∧
    Response.Code (Response entry)
      = PipeWriter.StatusCode (miss_headers handler r s) ∧
    (Config.StatusHeader (Config handler) ≠ "" →
     CanonicalMIMEHeaderKey (Config.StatusHeader (Config handler))
       = Config.StatusHeader (Config handler) →
     Response.HeaderMap (Response entry)
       !! CanonicalMIMEHeaderKey (Config.StatusHeader (Config handler))
     = None) ∧
    (∀ k, k ≠ Config.StatusHeader (Config handler) →
          k ≠ CanonicalMIMEHeaderKey (Config.StatusHeader (Config handler)) →
          Response.HeaderMap (Response entry) !! k
          = PipeWriter.Header (miss_headers handler r s) !! k) ∧
    (Config.StatusHeader (Config handler) = "" →
     Response.HeaderMap (Response entry)
     = PipeWriter.Header (miss_headers handler r s)) ∧
    Response.Body (Response entry) = None ∧
    cache s1 = cache s ∧
    started s1 = (started s ++
                  [go_handle (miss_pipe handler r s) (channels s);
                   go_drain (miss_pipe handler r s)])%list ∧
    (∀ st : MissPath.state,
       MissPath.reachable
         {| MissPath.chunks := PipeWriter.BodyChannel (miss_pipe handler r s);
            MissPath.decides := MissPath.drain |} st →
       MissPath.written st = "" ∧ MissPath.closed st = false) ∧
    ∀ at_ : option nat,
      shouldUseCache r = true →
      matching (matchesRequest r) (Cache_entries (getKey r) (cache s))
        = Some at_ →
      takes_miss_path (at_ ≫= (Cache_entries (getKey r) (cache s) !!.))
        = true →
      ∃ s' : World,
        ServeHTTP handler r s
          = Returns (Response.Code (Response entry), None) s' ∧
        Cache_entries (getKey r) (cache s')
          = match at_ with
            | Some i => <[i := entry]> (Cache_entries (getKey r) (cache s))
            | None => (Cache_entries (getKey r) (cache s) ++ [entry])%list
            end ∧
        contents (cache s') = contents (cache s).
Proof.
  intros H. do 2 eexists. split.
  { run_miss_path. use_policy H. reflexivity. }
  simpl. do 2 (split; [reflexivity |]).
  split.
  { intros Hname Hcanon. rewrite Hcanon.
    by apply RemoveStatusHeaderIfConfigured_lookup. }
  split.
  { intros k Hk _. by apply RemoveStatusHeaderIfConfigured_other. }
  split; [by apply RemoveStatusHeaderIfConfigured_unset |].
  repeat (split; [first [reflexivity | by rewrite <- app_assoc] |]).
  split.
  { intros st Hst.
    by apply (λ Hd, MissPath_drain_writes_nothing _ st Hd Hst). }
  intros at_ Huse Hat Hmiss.
  exact (ServeHTTP_miss_not_cacheable_run handler r s at_ expirationTime
           Huse Hat Hmiss H).
Qed.

(** C6.  When the policy or the opening of the content fails on the miss
    path, the miss path returns no entry and that error; [ServeHTTP]
    returns that error with the code 500, and the cache is as it was. *)
Theorem miss_error_is_returned (handler : CacheHandler) (r : http.Request)
    (s : World) (previous : option HttpCacheEntry) (e : error) :
  shouldUseCache r = true →
  previous_entry r s = Some previous →
  takes_miss_path previous = true →
  miss_fails handler r s e →
  (∃ s1, HandleNonCachedResponse handler r s
           = Returns (None, channels s, Some e) s1 ∧
         cache s1 = cache s) ∧
  ∃ s', ServeHTTP handler r s = Returns (500, Some e) s' ∧
        cache s' = cache s.
Proof.
  intros Huse Hprev Hmiss Hfail. split.
  { destruct (miss_fails_returns _ _ _ _ Hfail) as (s1 & Hrun & Hc & _).
    by exists s1. }
  destruct (miss_fails_returns handler r
              (set_returnedStatusCode http.StatusInternalServerError
                 (set_endChannel None s)) e Hfail)
    as (s1 & Hrun & Hc & Hend & Hcode).
  exists s1. split; [| exact Hc].
  change 500 with (returnedStatusCode
    (set_returnedStatusCode http.StatusInternalServerError
       (set_endChannel None s))).
  rewrite <- Hcode.
  apply (ServeHTTP_without_entry _ _ _ previous); try done.
  assert (ServeHTTP_func1 handler r previous
            (set_returnedStatusCode http.StatusInternalServerError
               (set_endChannel None s))
          = ServeHTTP_func1_miss handler r
              (set_returnedStatusCode http.StatusInternalServerError
                 (set_endChannel None s))) as ->.
  { unfold ServeHTTP_func1. destruct previous as [p|]; [| done].
    simpl in Hmiss. by rewrite Hmiss. }
  unfold ServeHTTP_func1_miss, mbind, M_bind. by rewrite Hrun.
Qed.

(** C7.  A cache hit: [ServeHTTP] returns the stored code and no error.
    On the writer, the values of every stored header stand in their
    order, as one block, under the canonical form of its name, and they
    are exactly what was appended there when no other stored name has
    that canonical form; the stored code has been written, then the
    bytes of the stored body.  The hit path itself returns the stored
    code in every world. *)
Theorem hit_replays_stored_response (handler : CacheHandler)
    (r : http.Request) (s : World) (previous : HttpCacheEntry) :
  shouldUseCache r = true →
  previous_entry r s = Some (Some previous) →
  isPublic previous = true →
  (∀ s0, ∃ s1, HandleCachedResponse handler r previous s0
               = Returns (Response.Code (Response previous)) s1) ∧
  ∃ s',
    ServeHTTP handler r s
      = Returns (Response.Code (Response previous), None) s' ∧
    (∀ k vs,
       Response.HeaderMap (Response previous) !! k = Some vs →
       ∃ pre post,
         values (http.Header_ (w s')) (CanonicalMIMEHeaderKey k)
         = (pre ++ vs ++ post)%list) ∧
    (∀ k vs,
       Response.HeaderMap (Response previous) !! k = Some vs →
       (∀ k', is_Some (Response.HeaderMap (Response previous) !! k') →
              CanonicalMIMEHeaderKey k' = CanonicalMIMEHeaderKey k →
              k' = k) →
       values (http.Header_ (w s')) (CanonicalMIMEHeaderKey k)
       = (values (http.Header_ (marked handler "hit" (w s)))
                 (CanonicalMIMEHeaderKey k) ++ vs)%list) ∧
    http.WriteHeader_ (w s')
      = (http.WriteHeader_ (w s) ++ [Response.Code (Response previous)])%list ∧
    http.Write_ (w s') = http.Write_ (w s) +:+ stored_body previous s ∧
    cache s' = cache s.
Proof using range_visits.
  intros Huse Hprev Hpub. split.
  { intros s0.
    destruct (HandleCachedResponse_returns handler r previous s0)
      as (s1 & Hrun & _). by exists s1. }
  pose (s0 := set_returnedStatusCode http.StatusInternalServerError
                (set_endChannel None s)).
  destruct (HandleCachedResponse_returns handler r previous
              (set_w (marked handler "hit" (w s0)) s0))
    as (s1 & Hrun & Hh & Hwh & Hwr & Hc & _ & Hend & _).
  exists (set_returnedStatusCode (Response.Code (Response previous)) s1).
  split.
  { apply (ServeHTTP_without_entry _ _ _ (Some previous) None
             (set_returnedStatusCode (Response.Code (Response previous)) s1));
      try done.
    unfold ServeHTTP_func1. rewrite Hpub. simpl.
    unfold mbind, M_bind. rewrite AddStatusHeaderIfConfigured_run.
    fold s0. by rewrite Hrun. }
  simpl in *. rewrite marked_twice in Hh.
  rewrite marked_WriteHeader in Hwh. rewrite marked_Write in Hwr.
  assert (∀ k vs, Response.HeaderMap (Response previous) !! k = Some vs →
                  (k, vs) ∈ range (Response.HeaderMap (Response previous)))
    as Hvisit.
  { intros k vs Hk. rewrite range_visits. by apply elem_of_map_to_list. }
  repeat split; try done.
  - intros k vs Hk. rewrite Hh, values_add_headers.
    destruct (replayed_block k vs _ (Hvisit k vs Hk)) as (pre & post & ->).
    eexists (_ ++ pre)%list, post. by rewrite <- app_assoc.
  - intros k vs Hk Hother. rewrite Hh, values_add_headers. f_equal.
    apply replayed_exact; [| by apply Hvisit |].
    + rewrite range_visits. apply NoDup_fst_map_to_list.
    + intros [k' vs'] Hin. simpl. apply Hother.
      rewrite range_visits in Hin. apply elem_of_map_to_list in Hin.
      by eexists.
Qed.

(** *** The miss path, branch by branch *)

(** What the miss path returns and the world it leaves, for each answer
    of the policy and of the storage. *)
Lemma HandleNonCachedResponse_run (handler : CacheHandler)
    (r : http.Request) (s : World) :
  HandleNonCachedResponse handler r s =
  match miss_policy handler r s with
  | (_, _, Some e) =>
      Returns (None, channels s, Some e)
        (set_stdout (stdout s ++ [e]) (miss_started handler r s))
  | (false, _, None) =>
      Returns
        (Some (miss_entry handler r s false (now s + 1 * time_Hour) None),
         channels s, None)
        (set_started
           (started (miss_started handler r s) ++
            [go_drain (miss_pipe handler r s)])
           (miss_started handler r s))
  | (true, expirationTime, None) =>
      match storage_failure (cache s) (getKey r) with
      | Some e =>
          Returns (None, channels s, Some e)
            (set_stdout (stdout s ++ [e]) (miss_started handler r s))
      | None =>
          Returns
            (Some (miss_entry handler r s true expirationTime
                     (Some (length (contents (cache s))))),
             channels s, None)
            (set_started
               (started (miss_started handler r s) ++
                [go_save (miss_pipe handler r s)
                   (length (contents (cache s)))])
               (miss_opened handler r s))
      end
  end.
Proof.
  destruct (miss_policy handler r s) as [[isCacheable exp] [e|]] eqn:H;
    [| destruct isCacheable;
       [destruct (storage_failure (cache s) (getKey r)) as [e|] eqn:Hs |]];
    run_miss_path; use_policy H;
    unfold Cache_NewContent, mbind, M_bind; simpl;
    try rewrite Hs; try destruct isCacheable; reflexivity.
Qed.

(** *** The key builder, further *)

Lemma length_pos (q : string) : q ≠ "" → (0 <? String.length q)%nat = true.
Proof. by destruct q. Qed.

(** X1.  The key does not tell the path from the query: a request whose
    path ends in [?q] and has no query gets the key of the request with
    the path before it and the query [q]. *)
Theorem getKey_path_query_collision (r1 r2 : http.Request) (q : string) :
  http.Method r1 = http.Method r2 →
  http.Host r1 = http.Host r2 →
  Query_Encode (url.RawQuery (http.URL r1)) = "" →
  Query_Encode (url.RawQuery (http.URL r2)) = q →
  q ≠ "" →
  url.Path (http.URL r1) = url.Path (http.URL r2) +:+ "?" +:+ q →
  getKey r1 = getKey r2.
Proof.
  intros Hm Hh Hq1 Hq2 Hq Hp. unfold getKey.
  rewrite Hq1, Hq2, (length_pos q Hq), Hm, Hh, Hp. simpl.
  by rewrite !append_assoc.
Qed.

Lemma append_space_inj (m1 m2 a b : string) :
  has_space m1 = false → has_space m2 = false →
  m1 +:+ " " +:+ a = m2 +:+ " " +:+ b → m1 = m2.
Proof.
  revert m2. induction m1 as [|c m1 IH]; intros [|c' m2] H1 H2 Heq;
    simpl in *; try done.
  - injection Heq as <- _. by rewrite Ascii.eqb_refl in H2.
  - injection Heq as -> _. by rewrite Ascii.eqb_refl in H1.
  - apply orb_false_iff in H1 as [_ H1]. apply orb_false_iff in H2 as [_ H2].
    change (String c (m1 +:+ " " +:+ a) = String c' (m2 +:+ " " +:+ b)) in Heq.
    injection Heq as -> Heq. f_equal. by apply IH.
Qed.

Lemma getKey_shape (r : http.Request) :
  ∃ rest, getKey r = http.Method r +:+ " " +:+ rest.
Proof.
  unfold getKey. destruct (0 <? _)%nat; eexists; [| reflexivity].
  rewrite append_assoc.
  change (" " +:+ http.Host r +:+ url.Path (http.URL r))
    with (String " " (http.Host r +:+ url.Path (http.URL r))).
  change ((String " " (http.Host r +:+ url.Path (http.URL r))) +:+ ?x)
    with (" " +:+ (http.Host r +:+ url.Path (http.URL r)) +:+ x).
  reflexivity.
Qed.

(** X2.  The key keeps methods apart: two requests whose methods have no
    space in them and whose keys are equal have the same method. *)
Theorem getKey_separates_methods (r1 r2 : http.Request) :
  has_space (http.Method r1) = false →
  has_space (http.Method r2) = false →
  getKey r1 = getKey r2 →
  http.Method r1 = http.Method r2.
Proof.
  intros H1 H2 Heq.
  destruct (getKey_shape r1) as [a Ha]. destruct (getKey_shape r2) as [b Hb].
  rewrite Ha, Hb in Heq. by apply (append_space_inj _ _ a b).
Qed.

(** *** The matcher, further *)

Lemma matchesRequest_loop_ext (stored current1 current2 : http_Header)
    (pieces : list string) :
  (∀ name, name ∈ map strings.TrimSpace pieces →
           current1 !! name = current2 !! name) →
  matchesRequest_loop stored current1 pieces
  = matchesRequest_loop stored current2 pieces.
Proof.
  induction pieces as [|p pieces IH]; intros H; simpl; [done |].
  rewrite (H (strings.TrimSpace p)) by (simpl; left).
  rewrite IH; [done |]. intros name Hin. apply H. simpl. by right.
Qed.

(** X3.  The predicate reads the current request only through the
    headers that the first Vary value names: two requests that agree on
    those get the same answer from every entry, whatever their method,
    URL and other headers. *)
Theorem matchesRequest_reads_named_headers (r1 r2 : http.Request)
    (entry : HttpCacheEntry) :
  (∀ vary0 rest name,
     Response.HeaderMap (Response entry) !! "Vary" = Some (vary0 :: rest) →
     name ∈ vary_names vary0 →
     http.Header r1 !! name = http.Header r2 !! name) →
  matchesRequest r1 entry = matchesRequest r2 entry.
Proof.
  intros H. unfold matchesRequest.
  destruct (Response.HeaderMap (Response entry) !! "Vary")
    as [[|vary0 rest]|] eqn:Hv; simpl; try done.
  f_equal. apply matchesRequest_loop_ext. intros name Hin.
  by apply (H vary0 rest name).
Qed.

Lemma matchesRequest_loop_same (h : http_Header) (pieces : list string) :
  matchesRequest_loop h h pieces = true.
Proof. apply matchesRequest_loop_true. by apply Forall_forall. Qed.

(** X4.  An entry that the miss path returns for a request matches that
    request, unless its stored Vary header is there without a value. *)
Theorem miss_entry_matches_its_request (handler : CacheHandler)
    (r : http.Request) (s : World) :
  RemoveStatusHeaderIfConfigured handler
    (PipeWriter.Header (miss_headers handler r s)) !! "Vary" ≠ Some [] →
  ∃ entry err s',
    HandleNonCachedResponse handler r s
      = Returns (entry, channels s, err) s' ∧
    ∀ e, entry = Some e → matchesRequest r e = Some true.
Proof.
  intros Hvary.
  destruct (HandleNonCachedResponse_returns handler r s)
    as (entry & err & s' & Hrun & _ & Hh & _).
  exists entry, err, s'. split; [exact Hrun |].
  intros e ->. specialize (Hh e eq_refl).
  rewrite HandleNonCachedResponse_run in Hrun.
  assert (Request.HeaderMap (Request e) = http.Header r) as Hreq.
  { destruct (miss_policy handler r s) as [[[] ?] [?|]];
      try destruct (storage_failure _ _); inversion Hrun; by subst. }
  unfold matchesRequest. rewrite Hh, Hreq.
  destruct (RemoveStatusHeaderIfConfigured _ _ !! "Vary")
    as [[|vary0 rest]|]; simpl; try done.
  by rewrite matchesRequest_loop_same.
Qed.

(** X5.  A stored Vary of [*] is taken as the name of a header: the entry
    matches every request that, like the stored one, has no header of
    that name. *)
Theorem matchesRequest_Vary_star (r : http.Request) (entry : HttpCacheEntry)
    (rest : list string) :
  Response.HeaderMap (Response entry) !! "Vary" = Some ("*" :: rest) →
  Request.HeaderMap (Request entry) !! "*" = None →
  http.Header r !! "*" = None →
  matchesRequest r entry = Some true.
Proof.
  intros Hv Hs Hr. unfold matchesRequest. rewrite Hv. simpl.
  change (strings.TrimSpace "*") with "*". by rewrite Hs, Hr.
Qed.

(** *** The status header, further *)

(** X6.  Of two marks put on the writer one after the other, only the
    last one stays. *)
Theorem AddStatusHeaderIfConfigured_last_wins (handler : CacheHandler)
    (status1 status2 : string) (s : World) :
  (AddStatusHeaderIfConfigured handler status1;;
   AddStatusHeaderIfConfigured handler status2) s
  = AddStatusHeaderIfConfigured handler status2 s.
Proof.
  unfold mbind, M_bind. rewrite !AddStatusHeaderIfConfigured_run. simpl.
  f_equal. unfold set_w. simpl. f_equal.
  unfold marked. destruct (bool_decide _); [| done]. simpl.
  unfold Header_Set. by rewrite insert_insert_eq.
Qed.

(** X7.  When the configured name is in canonical form and the writer
    did not have that header, taking the status header off the headers
    of the marked writer gives back the headers of the writer. *)
Theorem RemoveStatusHeaderIfConfigured_marked (handler : CacheHandler)
    (status : string) (x : http.ResponseWriter) :
  CanonicalMIMEHeaderKey (Config.StatusHeader (Config handler))
    = Config.StatusHeader (Config handler) →
  http.Header_ x !! Config.StatusHeader (Config handler) = None →
  RemoveStatusHeaderIfConfigured handler
    (http.Header_ (marked handler status x)) = http.Header_ x.
Proof.
  intros Hcanon Habsent. unfold RemoveStatusHeaderIfConfigured, marked.
  destruct (bool_decide _); [| done]. simpl.
  unfold Header_Set. rewrite Hcanon, delete_insert_eq. by apply delete_id.
Qed.

(** X8.  When the configured name is not in canonical form, the mark
    stays: it was set under the canonical form of the name, and the name
    as configured is what is deleted. *)
Theorem RemoveStatusHeaderIfConfigured_keeps_mark (handler : CacheHandler)
    (status : string) (x : http.ResponseWriter) :
  Config.StatusHeader (Config handler) ≠ "" →
  CanonicalMIMEHeaderKey (Config.StatusHeader (Config handler))
    ≠ Config.StatusHeader (Config handler) →
  RemoveStatusHeaderIfConfigured handler
    (http.Header_ (marked handler status x))
    !! CanonicalMIMEHeaderKey (Config.StatusHeader (Config handler))
  = Some [status].
Proof.
  intros Hname Hcanon. unfold RemoveStatusHeaderIfConfigured, marked.
  rewrite bool_decide_eq_true_2 by done. simpl. unfold Header_Set.
  rewrite lookup_delete_ne by done. by rewrite lookup_insert_eq.
Qed.

(** *** The miss path, further *)

(** X9.  Every entry that the miss path returns holds the headers of the
    request; a private one has no body and expires one hour after the
    present time, whatever expiration the policy gave. *)
Theorem miss_entry_snapshot_and_expiration (handler : CacheHandler)
    (r : http.Request) (s : World) :
  ∃ entry err s',
    HandleNonCachedResponse handler r s
      = Returns (entry, channels s, err) s' ∧
    ∀ e, entry = Some e →
      Request.HeaderMap (Request e) = http.Header r ∧
      (isPublic e = false →
       Expiration e = now s + 3600000000000 ∧
       Response.Body (Response e) = None).
Proof.
  rewrite HandleNonCachedResponse_run.
  destruct (miss_policy handler r s) as [[[] exp] [e|]];
    try destruct (storage_failure _ _) as [e'|];
    do 3 eexists; (split; [reflexivity |]); intros e0 [= <-]; by simpl.
Qed.

(** X10.  When the miss path fails, the goroutine that runs the
    responder has been started all the same, no goroutine has been
    started to consume the body, the error has been printed, and the
    writer has the miss mark. *)
Theorem miss_error_leaves_responder_running (handler : CacheHandler)
    (r : http.Request) (s : World) (e : error) :
  miss_fails handler r s e →
  ∃ s',
    HandleNonCachedResponse handler r s
      = Returns (None, channels s, Some e) s' ∧
    started s'
      = (started s ++ [go_handle (miss_pipe handler r s) (channels s)])%list ∧
    stdout s' = (stdout s ++ [e])%list ∧
    w s' = marked handler "miss" (w s).
Proof.
  intros Hfail. rewrite HandleNonCachedResponse_run.
  destruct Hfail as [(c & exp & ->) | (exp & -> & ->)];
    try destruct c; by eexists.
Qed.

(** *** The hit path, further *)

Lemma lookup_add_values_other (k : string) (vs : list string)
    (h : http_Header) (k' : string) :
  CanonicalMIMEHeaderKey k ≠ k' → add_values k vs h !! k' = h !! k'.
Proof.
  intros Hne. unfold add_values. revert h.
  induction vs as [|v vs IH]; intros h; simpl; [done |].
  rewrite IH. unfold Header_Add. by rewrite lookup_insert_ne.
Qed.

Lemma lookup_add_headers_other (kvs : list (string * list string))
    (h : http_Header) (k' : string) :
  (∀ kv, kv ∈ kvs → CanonicalMIMEHeaderKey kv.1 ≠ k') →
  add_headers kvs h !! k' = h !! k'.
Proof.
  unfold add_headers. revert h.
  induction kvs as [|kv kvs IH]; intros h H; simpl; [done |].
  rewrite IH by (intros kv' Hin; apply H; by right).
  apply lookup_add_values_other. apply H. by left.
Qed.

Lemma lookup_marked_other (handler : CacheHandler) (status : string)
    (x : http.ResponseWriter) (k' : string) :
  Config.StatusHeader (Config handler) = "" ∨
  CanonicalMIMEHeaderKey (Config.StatusHeader (Config handler)) ≠ k' →
  http.Header_ (marked handler status x) !! k' = http.Header_ x !! k'.
Proof.
  intros H. unfold marked. case_bool_decide as Hname; [| done]. simpl.
  destruct H as [H | H]; [done |]. unfold Header_Set.
  by rewrite lookup_insert_ne.
Qed.

(** X11.  The hit path leaves alone every header of the writer that is
    neither the status header nor the canonical form of a stored
    name. *)
Theorem hit_keeps_other_headers (handler : CacheHandler) (r : http.Request)
    (previous : HttpCacheEntry) (s : World) (k' : string) :
  (∀ k, is_Some (Response.HeaderMap (Response previous) !! k) →
        CanonicalMIMEHeaderKey k ≠ k') →
  Config.StatusHeader (Config handler) = "" ∨
  CanonicalMIMEHeaderKey (Config.StatusHeader (Config handler)) ≠ k' →
  ∃ s',
    HandleCachedResponse handler r previous s
      = Returns (Response.Code (Response previous)) s' ∧
    http.Header_ (w s') !! k' = http.Header_ (w s) !! k'.
Proof using range_visits.
  intros Hstored Hname.
  destruct (HandleCachedResponse_returns handler r previous s)
    as (s' & Hrun & Hh & _).
  exists s'. split; [exact Hrun |].
  rewrite Hh, lookup_add_headers_other, lookup_marked_other; [done.. |].
  intros [k vs] Hin. simpl. apply Hstored.
  rewrite range_visits in Hin. apply elem_of_map_to_list in Hin.
  by eexists.
Qed.

(** X12.  When no stored name has the canonical form of the configured
    status header, the writer leaves the hit path with exactly the hit
    mark under it, whatever mark it had before. *)
Theorem hit_mark_is_hit (handler : CacheHandler) (r : http.Request)
    (previous : HttpCacheEntry) (s : World) :
  Config.StatusHeader (Config handler) ≠ "" →
  (∀ k, is_Some (Response.HeaderMap (Response previous) !! k) →
        CanonicalMIMEHeaderKey k
        ≠ CanonicalMIMEHeaderKey (Config.StatusHeader (Config handler))) →
  ∃ s',
    HandleCachedResponse handler r previous s
      = Returns (Response.Code (Response previous)) s' ∧
    http.Header_ (w s')
      !! CanonicalMIMEHeaderKey (Config.StatusHeader (Config handler))
    = Some ["hit"].
Proof using range_visits.
  intros Hname Hstored.
  destruct (HandleCachedResponse_returns handler r previous s)
    as (s' & Hrun & Hh & _).
  exists s'. split; [exact Hrun |].
  rewrite Hh, lookup_add_headers_other.
  - unfold marked. rewrite bool_decide_eq_true_2 by done. simpl.
    unfold Header_Set. by rewrite lookup_insert_eq.
  - intros [k vs] Hin. simpl. apply Hstored.
    rewrite range_visits in Hin. apply elem_of_map_to_list in Hin.
    by eexists.
Qed.

(** *** The orchestrator, further *)

(** X13.  A request that is not eligible goes to the responder on the
    writer with the skip mark, and what the responder returns is
    returned; the cache is not touched, whatever it holds for the key,
    and no goroutine is started. *)
Theorem ServeHTTP_skips (handler : CacheHandler) (r : http.Request)
    (s : World) :
  shouldUseCache r = false →
  ∃ s',
    ServeHTTP handler r s
      = Returns
          (httpserver.ServeHTTP (Next handler)
             (marked handler "skip" (w s)) r).2 s' ∧
    w s' = (httpserver.ServeHTTP (Next handler)
              (marked handler "skip" (w s)) r).1 ∧
    cache s' = cache s ∧ started s' = started s ∧ stdout s' = stdout s.
Proof.
  intros Huse. unfold ServeHTTP. rewrite Huse. simpl.
  unfold mbind, M_bind. rewrite AddStatusHeaderIfConfigured_run. simpl.
  destruct (httpserver.ServeHTTP _ _ _) as [w' result]. by eexists.
Qed.

(** The first entry that the condition accepts, after a commit of an
    entry that it accepts: the committed entry. *)
Lemma matching_commit (condition : HttpCacheEntry → option bool)
    (stored : list HttpCacheEntry) (at_ : option nat) (e : HttpCacheEntry) :
  matching condition stored = Some at_ →
  condition e = Some true →
  ∃ j,
    matching condition
      (match at_ with
       | Some i => <[i := e]> stored
       | None => (stored ++ [e])%list
       end) = Some (Some j) ∧
    (match at_ with
     | Some i => <[i := e]> stored
     | None => (stored ++ [e])%list
     end) !! j = Some e.
Proof.
  intros Hm He. revert at_ Hm.
  induction stored as [|x stored IH]; intros at_ Hm; simpl in Hm.
  - injection Hm as <-. exists O. simpl. by rewrite He.
  - destruct (condition x) as [[|]|] eqn:Hx; [| | done].
    + injection Hm as <-. exists O. simpl. by rewrite He.
    + destruct (matching condition stored) as [at'|]; [| done].
      injection Hm as <-. destruct (IH at' eq_refl) as (j & Hj & Hl).
      exists (S j). destruct at' as [i|]; simpl; by rewrite Hx, Hj.
Qed.

(** [ServeHTTP] on a miss that yields an entry. *)
Lemma ServeHTTP_miss_run (handler : CacheHandler) (r : http.Request)
    (s : World) (at_ : option nat) (isCacheable : bool)
    (expirationTime : Z) :
  shouldUseCache r = true →
  matching (matchesRequest r) (Cache_entries (getKey r) (cache s))
    = Some at_ →
  takes_miss_path (at_ ≫= (Cache_entries (getKey r) (cache s) !!.)) = true →
  miss_policy handler r s = (isCacheable, expirationTime, None) →
  storage_failure (cache s) (getKey r) = None →
  ∃ s',
    ServeHTTP handler r s
      = Returns (PipeWriter.StatusCode (miss_headers handler r s), None) s' ∧
    Cache_entries (getKey r) (cache s')
      = (let e := miss_entry handler r s isCacheable
                    (if isCacheable then expirationTime
                     else now s + 1 * time_Hour)
                    (if isCacheable
                     then Some (length (contents (cache s))) else None) in
         match at_ with
         | Some i => <[i := e]> (Cache_entries (getKey r) (cache s))
         | None => (Cache_entries (getKey r) (cache s) ++ [e])%list
         end) ∧
    w s' = marked handler "miss" (w s).
Proof.
  intros Huse Hat Hmiss Hpolicy Hstorage.
  unfold ServeHTTP. rewrite Huse. simpl.
  unfold Cache_GetOrSet, mbind, M_bind, get in *. simpl. rewrite Hat.
  match goal with
  | |- context [ServeHTTP_func1 handler r ?previous] =>
      assert (ServeHTTP_func1 handler r previous
              = ServeHTTP_func1_miss handler r) as ->
  end.
  { unfold ServeHTTP_func1.
    destruct (option_bind _ _ _ at_) as [p|]; [| done].
    simpl in Hmiss. by rewrite Hmiss. }
  unfold ServeHTTP_func1_miss, mbind, M_bind.
  run_miss_path. use_policy Hpolicy.
  destruct isCacheable; simpl;
    unfold Cache_NewContent, mbind, M_bind; simpl; try rewrite Hstorage;
    simpl; unfold Cache_entries; simpl;
    (eexists; split; [reflexivity |]); simpl;
    rewrite lookup_insert_eq; simpl; by split.
Qed.

(** X14.  On a miss that yields an entry, [ServeHTTP] returns the status
    code that the responder sent and no error, and the entry for the
    request is kept under its key, with that code. *)
Theorem ServeHTTP_miss_reports_upstream_code (handler : CacheHandler)
    (r : http.Request) (s : World) (at_ : option nat) (isCacheable : bool)
    (expirationTime : Z) :
  shouldUseCache r = true →
  matching (matchesRequest r) (Cache_entries (getKey r) (cache s))
    = Some at_ →
  takes_miss_path (at_ ≫= (Cache_entries (getKey r) (cache s) !!.)) = true →
  miss_policy handler r s = (isCacheable, expirationTime, None) →
  storage_failure (cache s) (getKey r) = None →
  ∃ s' e,
    ServeHTTP handler r s
      = Returns (PipeWriter.StatusCode (miss_headers handler r s), None) s' ∧
    e ∈ Cache_entries (getKey r) (cache s') ∧
    isPublic e = isCacheable ∧
    Request.HeaderMap (Request e) = http.Header r ∧
    Response.Code (Response e)
      = PipeWriter.StatusCode (miss_headers handler r s).
Proof.
  intros Huse Hat Hmiss Hpolicy Hstorage.
  destruct (ServeHTTP_miss_run _ _ _ _ _ _ Huse Hat Hmiss Hpolicy Hstorage)
    as (s' & Hrun & Hentries & _).
  exists s', (miss_entry handler r s isCacheable
                (if isCacheable then expirationTime
                 else now s + 1 * time_Hour)
                (if isCacheable
                 then Some (length (contents (cache s))) else None)).
  split; [exact Hrun |]. split; [| done].
  rewrite Hentries. simpl. destruct at_ as [i|].
  - assert (i < length (Cache_entries (getKey r) (cache s)))%nat as Hi.
    { simpl in Hmiss.
      destruct (Cache_entries (getKey r) (cache s) !! i) eqn:Hl.
      - by apply lookup_lt_Some in Hl.
      - clear -Hat Hl. exfalso. revert i Hat Hl.
        induction (Cache_entries (getKey r) (cache s)) as [|x l IH];
          intros i Hat Hl; simpl in *; [done |].
        destruct (matchesRequest r x) as [[|]|]; [| | done].
        + by injection Hat as <-.
        + destruct (matching _ l) as [[j|]|]; try done.
          injection Hat as <-. by apply (IH j). }
    apply list_elem_of_lookup. exists i. by apply list_lookup_insert_eq.
  - apply elem_of_app. right. by left.
Qed.

(** X15.  After a miss that yields a public entry whose stored Vary
    header is not there without a value, the same request is a hit: the
    second call returns the same code and no error, writes that code on
    the writer, starts no goroutine and leaves the cache as the first
    call left it. *)
Theorem miss_then_hit (handler : CacheHandler) (r : http.Request)
    (s : World) (at_ : option nat) (expirationTime : Z) :
  shouldUseCache r = true →
  matching (matchesRequest r) (Cache_entries (getKey r) (cache s))
    = Some at_ →
  takes_miss_path (at_ ≫= (Cache_entries (getKey r) (cache s) !!.)) = true →
  miss_policy handler r s = (true, expirationTime, None) →
  storage_failure (cache s) (getKey r) = None →
  RemoveStatusHeaderIfConfigured handler
    (PipeWriter.Header (miss_headers handler r s)) !! "Vary" ≠ Some [] →
  ∃ code s1 s2,
    ServeHTTP handler r s = Returns (code, None) s1 ∧
    ServeHTTP handler r s1 = Returns (code, None) s2 ∧
    cache s2 = cache s1 ∧ started s2 = started s1 ∧
    http.WriteHeader_ (w s2) = (http.WriteHeader_ (w s1) ++ [code])%list.
Proof using range_visits.
  intros Huse Hat Hmiss Hpolicy Hstorage Hvary.
  destruct (ServeHTTP_miss_run _ _ _ _ _ _ Huse Hat Hmiss Hpolicy Hstorage)
    as (s1 & Hrun & Hentries & _).
  simpl in Hentries.
  set (e := miss_entry handler r s true expirationTime
              (Some (length (contents (cache s))))) in *.
  assert (matchesRequest r e = Some true) as He.
  { unfold matchesRequest, e. simpl.
    destruct (RemoveStatusHeaderIfConfigured _ _ !! "Vary")
      as [[|vary0 rest]|]; simpl; try done.
    by rewrite matchesRequest_loop_same. }
  destruct (matching_commit _ _ _ e Hat He) as (j & Hj & Hl).
  rewrite <- Hentries in Hj, Hl.
  assert (previous_entry r s1 = Some (Some e)) as Hprev.
  { unfold previous_entry. rewrite Hj. simpl. by rewrite Hl. }
  pose (s0 := set_returnedStatusCode http.StatusInternalServerError
                (set_endChannel None s1)).
  destruct (HandleCachedResponse_returns handler r e
              (set_w (marked handler "hit" (w s0)) s0))
    as (s2 & Hhit & _ & Hwh & _ & Hc & Hst & Hend & _).
  exists (PipeWriter.StatusCode (miss_headers handler r s)), s1,
         (set_returnedStatusCode (Response.Code (Response e)) s2).
  split; [exact Hrun |]. split.
  { apply (ServeHTTP_without_entry _ _ _ (Some e) None
             (set_returnedStatusCode (Response.Code (Response e)) s2));
      try done.
    unfold ServeHTTP_func1. simpl.
    unfold mbind, M_bind. rewrite AddStatusHeaderIfConfigured_run.
    fold s0. by rewrite Hhit. }
  simpl in *. rewrite marked_WriteHeader in Hwh. done.
Qed.

(** *** The matcher as a relation between requests *)

Lemma matchesRequest_loop_sym (a b : http_Header) (pieces : list string) :
  matchesRequest_loop a b pieces = matchesRequest_loop b a pieces.
Proof.
  induction pieces as [|p pieces IH]; simpl; [done |].
  rewrite IH. unfold reflect_DeepEqual.
  by rewrite (bool_decide_ext (a !! strings.TrimSpace p = b !! strings.TrimSpace p)
                (b !! strings.TrimSpace p = a !! strings.TrimSpace p)).
Qed.

Lemma matchesRequest_loop_trans (a b c : http_Header)
    (pieces : list string) :
  matchesRequest_loop a b pieces = true →
  matchesRequest_loop b c pieces = true →
  matchesRequest_loop a c pieces = true.
Proof.
  rewrite !matchesRequest_loop_true, !Forall_forall.
  intros Hab Hbc name Hin. by rewrite (Hab name Hin), (Hbc name Hin).
Qed.

(** X19.  Between requests served from entries with the same stored
    response, matching goes both ways and chains: the entry of the
    first request answers the second as the entry of the second answers
    the first, and when the entry of the first matches the second and
    the entry of the second matches a third, the entry of the first
    matches the third. *)
Theorem matchesRequest_symmetric_transitive (r1 r2 r3 : http.Request)
    (e1 e2 : HttpCacheEntry) :
  Response e1 = Response e2 →
  Request.HeaderMap (Request e1) = http.Header r1 →
  Request.HeaderMap (Request e2) = http.Header r2 →
  matchesRequest r2 e1 = matchesRequest r1 e2 ∧
  (matchesRequest r2 e1 = Some true →
   matchesRequest r3 e2 = Some true →
   matchesRequest r3 e1 = Some true).
Proof.
  intros Hresp H1 H2. unfold matchesRequest. rewrite Hresp, H1, H2.
  destruct (Response.HeaderMap (Response e2) !! "Vary")
    as [[|vary0 rest]|]; simpl; try done.
  split; [by rewrite matchesRequest_loop_sym |].
  intros [= H12] [= H23]. f_equal.
  by apply (matchesRequest_loop_trans _ (http.Header r2)).
Qed.

End Handler.

(** ** The completion signal *)

Lemma MissPath_returned_early_reachable :
  MissPath.reachable MissPath.one_chunk MissPath.returned_early.
Proof.
  unfold MissPath.reachable, MissPath.initial, MissPath.returned_early.
  eapply rtc_l; [apply MissPath.step_go_handle |].
  eapply rtc_l; [apply MissPath.step_headers |].
  eapply rtc_l; [by apply MissPath.step_go_consumer |].
  eapply rtc_l; [apply MissPath.step_chunk |].
  eapply rtc_l; [apply MissPath.step_close_body |].
  eapply rtc_l; [apply MissPath.step_end |].
  apply rtc_refl.
Qed.

(** C2, as it stands, fails: in a state that an execution reaches,
    [ServeHTTP] has returned and the goroutine that saves the body still
    holds a chunk that it has not written; the content is not closed. *)
Lemma save_in_flight_after_return :
  MissPath.reachable MissPath.one_chunk MissPath.returned_early ∧
  MissPath.main MissPath.returned_early = MissPath.main_returned ∧
  MissPath.consumer MissPath.returned_early
    = Some (MissPath.consumer_write "hello") ∧
  MissPath.closed MissPath.returned_early = false ∧
  ¬ MissPath.consumer_finished MissPath.returned_early.
Proof.
  split; [exact MissPath_returned_early_reachable |].
  repeat split. intros [? | ?]; discriminate.
Qed.

(** C2, amended.  On a miss path that returns an entry, [ServeHTTP]
    returns only after the goroutine of line 100 has sent on
    [endChannel], that is after [pipe.handle()] has returned and the body
    channel is closed. *)
Theorem ServeHTTP_returns_after_handle (sc : MissPath.scenario)
    (s : MissPath.state) :
  MissPath.reachable sc s →
  MissPath.decides sc ≠ MissPath.abort →
  MissPath.main s = MissPath.main_returned →
  MissPath.handle_finished s.
Proof.
  intros Hr Hd.
  cut ((MissPath.main s = MissPath.main_returned →
        MissPath.handle s = Some MissPath.handle_done) ∧
       (MissPath.handle s = Some MissPath.handle_send_end ∨
        MissPath.handle s = Some MissPath.handle_done →
        MissPath.body_closed s = true)).
  { intros [Hm Hb] Hret. split; [by apply Hm |].
    apply Hb. right. by apply Hm. }
  pattern s. eapply rtc_ind_r; [| | exact Hr]; clear s Hr.
  - split; [done |]. intros [? | ?]; done.
  - intros s1 s2 _ Hstep [Hm Hb].
    inversion Hstep; subst; simpl in *;
      (split; [try first [done | by intros Hret; specialize (Hm Hret)] |]);
      try done; try (intros [? | ?]; done).
    intros _. apply Hb. by left.
Qed.

Lemma ServeHTTP_returns_after_handle_witness :
  MissPath.handle_finished MissPath.returned_early.
Proof.
  apply (ServeHTTP_returns_after_handle MissPath.one_chunk).
  - exact MissPath_returned_early_reachable.
  - discriminate.
  - reflexivity.
Defined.

(** ** The status header in the stored snapshot, and what is stored *)

(** C4, as it stands, fails: once [ServeHTTP] has served a response that
    is not cacheable, the store, which held nothing for the key, holds
    an entry for it: the private entry that the miss path returned, with
    the code of the response. *)
Lemma not_cacheable_entry_is_stored :
  Cache_entries Demo.key_missing
    (cache (Demo.world Demo.key [] (λ _, None))) = [] ∧
  match ServeHTTP Demo.CanonicalMIMEHeaderKey Demo.Query_Encode Demo.range
          Demo.shouldUseCache Demo.getCacheableStatus
          Demo.PipeHandlerToChannels Demo.handler
          (Demo.request "/missing" ["gzip"])
          (Demo.world Demo.key [] (λ _, None)) with
  | Returns result s' =>
      result = (404, None) ∧
      isPublic <$> Cache_entries Demo.key_missing (cache s') = [false] ∧
      (λ e, Response.Code (Response e))
        <$> Cache_entries Demo.key_missing (cache s') = [404] ∧
      cache s' ≠ cache (Demo.world Demo.key [] (λ _, None))
  | Panics => False
  end.
Proof.
  split; [reflexivity |]. vm_compute.
  repeat split. intros H. discriminate H.
Qed.

(** C9, at a handler whose status header is configured as
    [x-cache-status]: the entry that the miss path returns holds the
    miss mark under [X-Cache-Status] in its response headers, for a
    response that is cacheable and for one that is not. *)
Theorem miss_entry_keeps_status_header :
  match HandleNonCachedResponse Demo.CanonicalMIMEHeaderKey Demo.Query_Encode
          Demo.getCacheableStatus Demo.PipeHandlerToChannels
          Demo.handler_lower (Demo.request "/hello" ["gzip"])
          (Demo.world Demo.key [] (λ _, None)) with
  | Returns (Some entry, _, None) _ =>
      isPublic entry = true ∧
      Response.HeaderMap (Response entry) !! "x-cache-status" = None ∧
      Response.HeaderMap (Response entry) !! "X-Cache-Status" = Some ["miss"]
  | _ => False
  end ∧
  match HandleNonCachedResponse Demo.CanonicalMIMEHeaderKey Demo.Query_Encode
          Demo.getCacheableStatus Demo.PipeHandlerToChannels
          Demo.handler_lower (Demo.request "/missing" ["gzip"])
          (Demo.world Demo.key [] (λ _, None)) with
  | Returns (Some entry, _, None) _ =>
      isPublic entry = false ∧
      Response.HeaderMap (Response entry) !! "x-cache-status" = None ∧
      Response.HeaderMap (Response entry) !! "X-Cache-Status" = Some ["miss"]
  | _ => False
  end.
Proof. split; vm_compute; repeat split. Qed.

(** C5, at that handler and a cacheable response: the miss path returns
    a public entry with the expiration of the policy, the upstream code
    and the content as its body, and its header snapshot holds the miss
    mark under [X-Cache-Status].  Once [ServeHTTP] has stored it, the
    same request on a fresh writer is a hit that sends the status header
    twice, [hit] and the stored [miss]. *)
Theorem miss_cacheable_stores_status_header :
  match HandleNonCachedResponse Demo.CanonicalMIMEHeaderKey Demo.Query_Encode
          Demo.getCacheableStatus Demo.PipeHandlerToChannels
          Demo.handler_lower (Demo.request "/hello" ["gzip"])
          (Demo.world Demo.key [] (λ _, None)) with
  | Returns (Some entry, _, None) _ =>
      isPublic entry = true ∧ Expiration entry = 600 ∧
      Response.Code (Response entry) = 200 ∧
      Response.Body (Response entry) = Some 1%nat ∧
      Response.HeaderMap (Response entry) !! "X-Cache-Status" = Some ["miss"]
  | _ => False
  end ∧
  match ServeHTTP Demo.CanonicalMIMEHeaderKey Demo.Query_Encode Demo.range
          Demo.shouldUseCache Demo.getCacheableStatus
          Demo.PipeHandlerToChannels Demo.handler_lower
          (Demo.request "/hello" ["gzip"])
          (Demo.world Demo.key [] (λ _, None)) with
  | Returns result s1 =>
      result = (200, None) ∧
      match ServeHTTP Demo.CanonicalMIMEHeaderKey Demo.Query_Encode
              Demo.range Demo.shouldUseCache Demo.getCacheableStatus
              Demo.PipeHandlerToChannels Demo.handler_lower
              (Demo.request "/hello" ["gzip"]) (set_w Demo.writer s1) with
      | Returns result' s2 =>
          result' = (200, None) ∧
          http.WriteHeader_ (w s2) = [200] ∧
          http.Header_ (w s2) !! "X-Cache-Status" = Some ["hit"; "miss"]
      | Panics => False
      end
  | Panics => False
  end.
Proof. split; vm_compute; repeat split. Qed.

(** ** The goroutines, further *)

(** X16.  When the miss path fails, nothing ever receives from
    [endChannel]: the goroutine that runs the responder never gets past
    its send, and no goroutine consumes the body or writes a content. *)
Theorem MissPath_abort_blocks_handle (sc : MissPath.scenario)
    (s : MissPath.state) :
  MissPath.decides sc = MissPath.abort →
  MissPath.reachable sc s →
  MissPath.handle s ≠ Some MissPath.handle_done ∧
  MissPath.consumer s = None ∧
  MissPath.written s = "" ∧ MissPath.closed s = false.
Proof.
  intros Hd Hr.
  cut (MissPath.main s ≠ MissPath.main_wait_end ∧
       MissPath.handle s ≠ Some MissPath.handle_done ∧
       MissPath.consumer s = None ∧
       MissPath.written s = "" ∧ MissPath.closed s = false); [tauto |].
  pattern s. eapply rtc_ind_r; [| | exact Hr]; clear s Hr; [done |].
  intros s1 s2 _ Hstep (Hm & Hh & Hc & Hw & Hcl).
  inversion Hstep; subst; simpl in *; try done.
Qed.

Lemma MissPath_closed_then_done (sc : MissPath.scenario)
    (s : MissPath.state) :
  MissPath.reachable sc s →
  MissPath.closed s = true →
  MissPath.consumer s = Some MissPath.consumer_done.
Proof.
  intros Hr. pattern s. eapply rtc_ind_r; [| | exact Hr]; clear s Hr; [done |].
  intros s1 s2 _ Hstep IH Hcl.
  inversion Hstep; subst; simpl in *; try done;
    specialize (IH Hcl); done.
Qed.

(** X17.  While a cacheable response is saved, the content holds at
    every moment a prefix of the body, and when it is closed it holds
    the whole body. *)
Theorem MissPath_content_is_prefix (sc : MissPath.scenario)
    (s : MissPath.state) :
  MissPath.decides sc = MissPath.save →
  MissPath.reachable sc s →
  (∃ rest, MissPath.written s +:+ rest = MissPath.join (MissPath.chunks sc)) ∧
  (MissPath.closed s = true →
   MissPath.written s = MissPath.join (MissPath.chunks sc)).
Proof.
  intros Hd Hr.
  destruct (MissPath_save_invariant sc s Hd Hr) as (Hsum & Hbc & Hcl & _).
  split; [by eexists |].
  intros Hclosed.
  pose proof (MissPath_closed_then_done sc s Hr Hclosed) as Hdone.
  rewrite Hdone in Hsum. simpl in Hsum.
  rewrite (Hbc (Hcl (or_intror Hdone))) in Hsum. simpl in Hsum.
  by rewrite append_empty_r in Hsum.
Qed.

Lemma MissPath_consistent_step (sc : MissPath.scenario)
    (s1 s2 : MissPath.state) :
  MissPath.decides sc ≠ MissPath.abort →
  MissPath.consistent s1 → MissPath.step sc s1 s2 → MissPath.consistent s2.
Proof.
  intros Hd (Hm & Hb & Hc) Hstep. unfold MissPath.consistent.
  inversion Hstep; subst; simpl in *;
    unfold MissPath.received, MissPath.after_last;
    try destruct m; try destruct (MissPath.decides sc); simpl in *;
    intuition (try discriminate; try congruence; eauto).
Qed.

Lemma MissPath_reachable_consistent (sc : MissPath.scenario)
    (s : MissPath.state) :
  MissPath.decides sc ≠ MissPath.abort →
  MissPath.reachable sc s → MissPath.consistent s.
Proof.
  intros Hd Hr. pattern s. eapply rtc_ind_r; [| | exact Hr]; clear s Hr.
  - unfold MissPath.consistent. simpl.
    intuition (try discriminate; try congruence).
  - intros s1 s2 _ Hstep IH. by eapply MissPath_consistent_step.
Qed.

Lemma MissPath_progress (sc : MissPath.scenario) (s : MissPath.state) :
  MissPath.decides sc ≠ MissPath.abort →
  MissPath.consistent s →
  MissPath.finished s ∨
  ∃ s', MissPath.step sc s s' ∧ (MissPath.rank sc s' < MissPath.rank sc s)%nat.
Proof.
  intros Hd. destruct s as [m h c bc wr cl].
  unfold MissPath.consistent, MissPath.finished, MissPath.rank. simpl.
  intros (Hm & Hb & Hc).
  destruct m.
  - destruct Hm as [-> ->]. right. eexists.
    split; [apply MissPath.step_go_handle | simpl; lia].
  - destruct Hm as [-> ->]. right. eexists.
    split; [apply MissPath.step_headers | simpl; lia].
  - destruct Hm as [_ ->]. right. eexists.
    split; [by apply MissPath.step_go_consumer | simpl; lia].
  - right. destruct Hm as [Hh Hne].
    destruct c as [[|content| |]|]; [| | | | done].
    + destruct Hh as [[[|content rest] ->] | ->].
      * eexists. split; [apply MissPath.step_close_body | simpl; lia].
      * eexists. split; [apply MissPath.step_chunk |].
        unfold MissPath.received. destruct (MissPath.decides sc); simpl; lia.
      * eexists. split; [apply MissPath.step_end | simpl; lia].
    + eexists. split; [apply MissPath.step_Write | simpl; lia].
    + eexists. split; [apply MissPath.step_Close | simpl; lia].
    + destruct (Hc (or_intror eq_refl)) as [-> | ->].
      * eexists. split; [apply MissPath.step_end | simpl; lia].
      * by destruct Hh as [[rest ?] | ?].
  - destruct Hm as [-> Hne].
    destruct c as [[|content| |]|]; [| | | | done].
    + right. assert (bc = true) as -> by (apply Hb; by right).
      eexists. split; [apply MissPath.step_range_ends |].
      unfold MissPath.after_last. destruct (MissPath.decides sc); simpl; lia.
    + right. eexists. split; [apply MissPath.step_Write | simpl; lia].
    + right. eexists. split; [apply MissPath.step_Close | simpl; lia].
    + by left.
Qed.

Lemma MissPath_can_finish_from (sc : MissPath.scenario) (n : nat)
    (s : MissPath.state) :
  (MissPath.rank sc s < n)%nat →
  MissPath.decides sc ≠ MissPath.abort →
  MissPath.consistent s →
  ∃ s', rtc (MissPath.step sc) s s' ∧ MissPath.finished s'.
Proof.
  revert s. induction n as [|n IH]; intros s Hn Hd Hc; [lia |].
  destruct (MissPath_progress sc s Hd Hc) as [Hf | (s1 & Hstep & Hlt)].
  - by exists s.
  - destruct (IH s1) as (s' & Hpath & Hf); [lia | done | |].
    + by eapply MissPath_consistent_step.
    + exists s'. split; [by eapply rtc_l | done].
Qed.

(** X18.  On a miss path that yields an entry no execution is ever
    stuck: from every state that one reaches, the goroutines can go on
    until [ServeHTTP] has returned and both goroutines are at their end;
    the content of a cacheable response is then closed and holds the
    whole body. *)
Theorem MissPath_can_finish (sc : MissPath.scenario) (s : MissPath.state) :
  MissPath.decides sc ≠ MissPath.abort →
  MissPath.reachable sc s →
  ∃ s',
    rtc (MissPath.step sc) s s' ∧ MissPath.finished s' ∧
    (MissPath.decides sc = MissPath.save →
     MissPath.written s' = MissPath.join (MissPath.chunks sc) ∧
     MissPath.closed s' = true).
Proof.
  intros Hd Hr.
  destruct (MissPath_can_finish_from sc (S (MissPath.rank sc s)) s)
    as (s' & Hpath & Hf);
    [lia | done | by apply (MissPath_reachable_consistent sc) |].
  exists s'. split; [done |]. split; [done |].
  intros Hsave.
  assert (MissPath.reachable sc s') as Hr'.
  { unfold MissPath.reachable. by etrans. }
  destruct Hf as (_ & _ & Hdone).
  destruct (MissPath_save_invariant sc s' Hsave Hr')
    as (Hsum & Hbc & Hcl & Hclosed).
  split; [| by apply Hclosed].
  rewrite Hdone in Hsum. simpl in Hsum.
  rewrite (Hbc (Hcl (or_intror Hdone))) in Hsum. simpl in Hsum.
  by rewrite append_empty_r in Hsum.
Qed.

(** ** The properties at the instance *)

(** Two requests that differ in their Accept-Encoding header. *)
Lemma getKey_ignores_headers_witness :
  getKey Demo.Query_Encode (Demo.request "/hello" ["gzip"])
  = getKey Demo.Query_Encode (Demo.request "/hello" ["br"]).
Proof. apply getKey_ignores_headers; reflexivity. Defined.

(** An entry whose Vary list has a second value. *)
Lemma matchesRequest_first_Vary_value_witness :
  ∃ b : bool,
    matchesRequest (Demo.request "/hello" ["gzip"])
      (Demo.entry true ["Accept-Encoding"; "Cookie"]) = Some b ∧
    (b = true ↔
     Forall (λ name,
               Request.HeaderMap
                 (Request (Demo.entry true ["Accept-Encoding"; "Cookie"]))
                 !! name
               = http.Header (Demo.request "/hello" ["gzip"]) !! name)
            (vary_names "Accept-Encoding")).
Proof.
  apply (matchesRequest_first_Vary_value _ _ "Accept-Encoding" ["Cookie"]).
  reflexivity.
Defined.

(** A request that the responder answers with a 404, with the status
    header configured under its canonical name: the headers received
    hold the miss mark, the entry does not, and the entry is what the
    store holds for the key afterwards. *)
Lemma miss_not_cacheable_witness :
  PipeWriter.Header
    (miss_headers Demo.CanonicalMIMEHeaderKey Demo.PipeHandlerToChannels
       Demo.handler (Demo.request "/missing" ["gzip"])
       (Demo.world Demo.key [] (λ _, None)))
    !! "X-Cache-Status" = Some ["miss"] ∧
  ∃ (entry : HttpCacheEntry) (s1 s' : World),
    HandleNonCachedResponse Demo.CanonicalMIMEHeaderKey Demo.Query_Encode
      Demo.getCacheableStatus Demo.PipeHandlerToChannels Demo.handler
      (Demo.request "/missing" ["gzip"])
      (Demo.world Demo.key [] (λ _, None))
    = Returns (Some entry, O, None) s1 ∧
    isPublic entry = false ∧
    Response.Code (Response entry) = 404 ∧
    Response.HeaderMap (Response entry) !! "X-Cache-Status" = None ∧
    Response.HeaderMap (Response entry) !! "Content-Type"
      = Some ["text/plain"] ∧
    Response.Body (Response entry) = None ∧
    cache s1 = cache (Demo.world Demo.key [] (λ _, None)) ∧
    ServeHTTP Demo.CanonicalMIMEHeaderKey Demo.Query_Encode Demo.range
      Demo.shouldUseCache Demo.getCacheableStatus Demo.PipeHandlerToChannels
      Demo.handler (Demo.request "/missing" ["gzip"])
      (Demo.world Demo.key [] (λ _, None))
    = Returns (404, None) s' ∧
    Cache_entries Demo.key_missing (cache s') = [entry].
Proof.
  split; [reflexivity |].
  destruct (miss_not_cacheable Demo.CanonicalMIMEHeaderKey Demo.Query_Encode
              Demo.range Demo.shouldUseCache Demo.getCacheableStatus
              Demo.PipeHandlerToChannels Demo.handler
              (Demo.request "/missing" ["gzip"])
              (Demo.world Demo.key [] (λ _, None)) 0 eq_refl)
    as (entry & s1 & Hrun & Hp & Hc & Hmark & Hother & _ & Hb & Hcache & _
        & _ & Hserve).
  destruct (Hserve None eq_refl eq_refl eq_refl) as (s' & Hrun' & Hstored & _).
  exists entry, s1, s'.
  split; [exact Hrun |]. split; [exact Hp |]. split; [exact Hc |].
  split; [apply Hmark; [discriminate | reflexivity] |].
  split; [rewrite Hother; [reflexivity | discriminate | discriminate] |].
  split; [exact Hb |]. split; [exact Hcache |].
  split; [rewrite Hc in Hrun'; exact Hrun' | exact Hstored].
Defined.

(** A request that the responder answers with a 200. *)
Lemma miss_cacheable_witness :
  ∃ (entry : HttpCacheEntry) (s' : World),
    HandleNonCachedResponse Demo.CanonicalMIMEHeaderKey Demo.Query_Encode
      Demo.getCacheableStatus Demo.PipeHandlerToChannels Demo.handler
      (Demo.request "/hello" ["gzip"])
      (Demo.world Demo.key [] (λ _, None))
    = Returns (Some entry, O, None) s' ∧
    isPublic entry = true ∧
    Expiration entry = 600 ∧
    Response.Code (Response entry) = 200 ∧
    Response.HeaderMap (Response entry) !! "X-Cache-Status" = None ∧
    Response.Body (Response entry) = Some 1%nat.
Proof.
  destruct (miss_cacheable Demo.CanonicalMIMEHeaderKey Demo.Query_Encode
              Demo.getCacheableStatus Demo.PipeHandlerToChannels Demo.handler
              (Demo.request "/hello" ["gzip"])
              (Demo.world Demo.key [] (λ _, None)) 600 eq_refl eq_refl)
    as (entry & s' & Hrun & Hp & He & Hc & Hmark & _ & _ & Hb & _).
  exists entry, s'. repeat split; try assumption.
  apply Hmark; [discriminate | reflexivity].
Defined.

Lemma miss_entry_has_no_status_header_witness :
  ∃ entry endChn err s',
    HandleNonCachedResponse Demo.CanonicalMIMEHeaderKey Demo.Query_Encode
      Demo.getCacheableStatus Demo.PipeHandlerToChannels Demo.handler
      (Demo.request "/hello" ["gzip"])
      (Demo.world Demo.key [] (λ _, None))
    = Returns (entry, endChn, err) s' ∧
    ∀ e, entry = Some e →
      Response.HeaderMap (Response e) !! "X-Cache-Status" = None.
Proof.
  apply (miss_entry_has_no_status_header Demo.CanonicalMIMEHeaderKey
           Demo.Query_Encode Demo.getCacheableStatus
           Demo.PipeHandlerToChannels Demo.handler).
  - discriminate.
  - reflexivity.
Defined.

(** A request that the policy fails on, with nothing stored for its
    key. *)
Lemma miss_error_is_returned_witness :
  ∃ s',
    ServeHTTP Demo.CanonicalMIMEHeaderKey Demo.Query_Encode Demo.range
      Demo.shouldUseCache Demo.getCacheableStatus Demo.PipeHandlerToChannels
      Demo.handler (Demo.request "/broken" ["gzip"])
      (Demo.world Demo.key [] (λ _, None))
    = Returns (500, Some "policy failure") s' ∧
    cache s' = cache (Demo.world Demo.key [] (λ _, None)).
Proof.
  apply (miss_error_is_returned Demo.CanonicalMIMEHeaderKey Demo.Query_Encode
           Demo.range Demo.shouldUseCache Demo.getCacheableStatus
           Demo.PipeHandlerToChannels Demo.handler
           (Demo.request "/broken" ["gzip"])
           (Demo.world Demo.key [] (λ _, None)) None "policy failure").
  - reflexivity.
  - reflexivity.
  - reflexivity.
  - left. exists false, 0. reflexivity.
Defined.

(** A request that matches the public entry stored for its key. *)
Lemma hit_replays_stored_response_witness :
  ∃ s',
    ServeHTTP Demo.CanonicalMIMEHeaderKey Demo.Query_Encode Demo.range
      Demo.shouldUseCache Demo.getCacheableStatus Demo.PipeHandlerToChannels
      Demo.handler (Demo.request "/hello" ["gzip"])
      (Demo.world Demo.key [Demo.entry true ["Accept-Encoding"]] (λ _, None))
    = Returns (200, None) s' ∧
    http.WriteHeader_ (w s') = [200] ∧
    http.Write_ (w s') = "hello".
Proof.
  destruct (hit_replays_stored_response Demo.CanonicalMIMEHeaderKey
              Demo.Query_Encode Demo.range (λ m, reflexivity _)
              Demo.shouldUseCache Demo.getCacheableStatus
              Demo.PipeHandlerToChannels Demo.handler
              (Demo.request "/hello" ["gzip"])
              (Demo.world Demo.key [Demo.entry true ["Accept-Encoding"]]
                 (λ _, None))
              (Demo.entry true ["Accept-Encoding"])
              eq_refl eq_refl eq_refl)
    as (_ & s' & Hrun & _ & _ & Hcode & Hbody & _).
  exists s'. repeat split; assumption.
Defined.

(** ** Runs of the definitions *)

Example vary_names_trimmed :
  vary_names "Accept-Encoding,  User-Agent ,x"
  = ["Accept-Encoding"; "User-Agent"; "x"].
Proof. reflexivity. Qed.

Example getKey_of_request :
  getKey Demo.Query_Encode (Demo.request "/hello" ["gzip"]) = Demo.key.
Proof. reflexivity. Qed.

Example matchesRequest_same_encoding :
  matchesRequest (Demo.request "/hello" ["gzip"])
    (Demo.entry true ["Accept-Encoding"]) = Some true.
Proof. reflexivity. Qed.

Example matchesRequest_other_encoding :
  matchesRequest (Demo.request "/hello" ["br"])
    (Demo.entry true ["Accept-Encoding"]) = Some false.
Proof. reflexivity. Qed.

Example matchesRequest_second_value_not_read :
  matchesRequest (Demo.request "/hello" ["br"])
    (Demo.entry true ["Cookie"; "Accept-Encoding"]) = Some true.
Proof. reflexivity. Qed.

(** A hit: the stored code, and the stored headers and body on the
    writer, with the hit mark. *)
Example ServeHTTP_hit :
  match ServeHTTP Demo.CanonicalMIMEHeaderKey Demo.Query_Encode Demo.range
          Demo.shouldUseCache Demo.getCacheableStatus
          Demo.PipeHandlerToChannels Demo.handler
          (Demo.request "/hello" ["gzip"])
          (Demo.world Demo.key [Demo.entry true ["Accept-Encoding"]]
             (λ _, None)) with
  | Returns result s' =>
      result = (200, None) ∧
      http.Header_ (w s') !! "X-Cache-Status" = Some ["hit"] ∧
      http.Header_ (w s') !! "Content-Type" = Some ["text/plain"] ∧
      http.Write_ (w s') = "hello" ∧
      started s' = []
  | Panics => False
  end.
Proof. vm_compute. repeat split. Qed.

(** A miss on a private entry: the responder is asked again, the entry
    is replaced by a public one, and the goroutine that saves the body
    is left running. *)
Example ServeHTTP_miss :
  match ServeHTTP Demo.CanonicalMIMEHeaderKey Demo.Query_Encode Demo.range
          Demo.shouldUseCache Demo.getCacheableStatus
          Demo.PipeHandlerToChannels Demo.handler
          (Demo.request "/hello" ["gzip"])
          (Demo.world Demo.key [Demo.entry false ["Accept-Encoding"]]
             (λ _, None)) with
  | Returns result s' =>
      result = (200, None) ∧
      http.Header_ (w s') !! "X-Cache-Status" = Some ["miss"] ∧
      isPublic <$> Cache_entries Demo.key (cache s') = [true] ∧
      length (started s') = 1%nat
  | Panics => False
  end.
Proof. vm_compute. repeat split. Qed.

(** ** The further properties at the instance *)

(** [/a%3Fx=1] and [/a?x=1], as the server decodes them. *)
Lemma getKey_path_query_collision_witness :
  getKey Demo.Query_Encode (Demo.request_of "GET" "/a?x=1" "")
  = getKey Demo.Query_Encode (Demo.request_of "GET" "/a" "x=1").
Proof.
  apply (getKey_path_query_collision Demo.Query_Encode _ _ "x=1");
    [reflexivity | reflexivity | reflexivity | reflexivity
    | discriminate | reflexivity].
Defined.

Lemma getKey_separates_methods_witness :
  http.Method (Demo.request_of "GET" "/a" "x=1")
  = http.Method (Demo.request_of "GET" "/a?x=1" "").
Proof.
  apply (getKey_separates_methods Demo.Query_Encode); reflexivity.
Defined.

(** Two requests with the same encoding, one with a cookie. *)
Lemma matchesRequest_reads_named_headers_witness :
  matchesRequest (Demo.request "/hello" ["gzip"])
    (Demo.entry true ["Accept-Encoding"])
  = matchesRequest Demo.request_with_cookie
      (Demo.entry true ["Accept-Encoding"]).
Proof.
  apply matchesRequest_reads_named_headers.
  intros vary0 rest name Hv Hin.
  vm_compute in Hv. injection Hv as <- <-.
  change (vary_names "Accept-Encoding") with ["Accept-Encoding"] in Hin.
  apply list_elem_of_singleton in Hin as ->. reflexivity.
Defined.

Lemma miss_entry_matches_its_request_witness :
  ∃ entry err s',
    HandleNonCachedResponse Demo.CanonicalMIMEHeaderKey Demo.Query_Encode
      Demo.getCacheableStatus Demo.PipeHandlerToChannels Demo.handler
      (Demo.request "/hello" ["gzip"])
      (Demo.world Demo.key [] (λ _, None))
    = Returns (entry, O, err) s' ∧
    ∀ e, entry = Some e →
      matchesRequest (Demo.request "/hello" ["gzip"]) e = Some true.
Proof.
  apply (miss_entry_matches_its_request Demo.CanonicalMIMEHeaderKey
           Demo.Query_Encode Demo.getCacheableStatus
           Demo.PipeHandlerToChannels Demo.handler).
  intros H. vm_compute in H. discriminate H.
Defined.

Lemma matchesRequest_Vary_star_witness :
  matchesRequest (Demo.request "/hello" ["br"]) (Demo.entry true ["*"])
  = Some true.
Proof.
  apply (matchesRequest_Vary_star _ _ []); reflexivity.
Defined.

Lemma RemoveStatusHeaderIfConfigured_marked_witness :
  RemoveStatusHeaderIfConfigured Demo.handler
    (http.Header_
       (marked Demo.CanonicalMIMEHeaderKey Demo.handler "miss" Demo.writer))
  = http.Header_ Demo.writer.
Proof.
  apply RemoveStatusHeaderIfConfigured_marked; reflexivity.
Defined.

Lemma RemoveStatusHeaderIfConfigured_keeps_mark_witness :
  RemoveStatusHeaderIfConfigured Demo.handler_lower
    (http.Header_
       (marked Demo.CanonicalMIMEHeaderKey Demo.handler_lower "miss"
          Demo.writer))
    !! "X-Cache-Status" = Some ["miss"].
Proof.
  apply (RemoveStatusHeaderIfConfigured_keeps_mark
           Demo.CanonicalMIMEHeaderKey Demo.handler_lower);
    discriminate.
Defined.

Lemma miss_error_leaves_responder_running_witness :
  ∃ s',
    HandleNonCachedResponse Demo.CanonicalMIMEHeaderKey Demo.Query_Encode
      Demo.getCacheableStatus Demo.PipeHandlerToChannels Demo.handler
      (Demo.request "/broken" ["gzip"])
      (Demo.world Demo.key [] (λ _, None))
    = Returns (None, O, Some "policy failure") s' ∧
    length (started s') = 1%nat ∧
    stdout s' = ["policy failure"].
Proof.
  destruct (miss_error_leaves_responder_running Demo.CanonicalMIMEHeaderKey
              Demo.Query_Encode Demo.getCacheableStatus
              Demo.PipeHandlerToChannels Demo.handler
              (Demo.request "/broken" ["gzip"])
              (Demo.world Demo.key [] (λ _, None)) "policy failure"
              (or_introl (ex_intro _ false (ex_intro _ 0 eq_refl))))
    as (s' & Hrun & Hst & Hout & _).
  exists s'. split; [exact Hrun |]. split.
  - rewrite Hst. reflexivity.
  - rewrite Hout. reflexivity.
Defined.

Lemma Demo_stored_names (k : string) :
  is_Some (Response.HeaderMap (Response (Demo.entry true ["Accept-Encoding"]))
           !! k) →
  k = "Content-Type" ∨ k = "Vary".
Proof.
  intros [v Hk]. simpl in Hk.
  apply lookup_insert_Some in Hk as [[<- _] | [_ Hk]]; [by left |].
  apply lookup_singleton_Some in Hk as [<- _]. by right.
Qed.

Lemma hit_keeps_other_headers_witness :
  ∃ s',
    HandleCachedResponse Demo.CanonicalMIMEHeaderKey Demo.range Demo.handler
      (Demo.request "/hello" ["gzip"]) (Demo.entry true ["Accept-Encoding"])
      (Demo.world Demo.key [] (λ _, None))
    = Returns 200 s' ∧
    http.Header_ (w s') !! "Server" = None.
Proof.
  apply (hit_keeps_other_headers Demo.CanonicalMIMEHeaderKey Demo.range
           (λ m, reflexivity _) Demo.handler
           (Demo.request "/hello" ["gzip"])
           (Demo.entry true ["Accept-Encoding"])
           (Demo.world Demo.key [] (λ _, None)) "Server").
  - intros k Hk. destruct (Demo_stored_names k Hk) as [-> | ->]; discriminate.
  - right. discriminate.
Defined.

Lemma hit_mark_is_hit_witness :
  ∃ s',
    HandleCachedResponse Demo.CanonicalMIMEHeaderKey Demo.range Demo.handler
      (Demo.request "/hello" ["gzip"]) (Demo.entry true ["Accept-Encoding"])
      (Demo.world Demo.key [] (λ _, None))
    = Returns 200 s' ∧
    http.Header_ (w s') !! "X-Cache-Status" = Some ["hit"].
Proof.
  apply (hit_mark_is_hit Demo.CanonicalMIMEHeaderKey Demo.range
           (λ m, reflexivity _) Demo.handler
           (Demo.request "/hello" ["gzip"])
           (Demo.entry true ["Accept-Encoding"])
           (Demo.world Demo.key [] (λ _, None))).
  - discriminate.
  - intros k Hk. destruct (Demo_stored_names k Hk) as [-> | ->]; discriminate.
Defined.

(** A POST, which is not eligible, for a key that has a public entry. *)
Lemma ServeHTTP_skips_witness :
  ∃ s',
    ServeHTTP Demo.CanonicalMIMEHeaderKey Demo.Query_Encode Demo.range
      Demo.shouldUseCache Demo.getCacheableStatus Demo.PipeHandlerToChannels
      Demo.handler (Demo.request_of "POST" "/hello" "a=1")
      (Demo.world Demo.key [Demo.entry true []] (λ _, None))
    = Returns (200, None) s' ∧
    cache s' = cache (Demo.world Demo.key [Demo.entry true []] (λ _, None)) ∧
    started s' = [].
Proof.
  destruct (ServeHTTP_skips Demo.CanonicalMIMEHeaderKey Demo.Query_Encode
              Demo.range Demo.shouldUseCache Demo.getCacheableStatus
              Demo.PipeHandlerToChannels Demo.handler
              (Demo.request_of "POST" "/hello" "a=1")
              (Demo.world Demo.key [Demo.entry true []] (λ _, None))
              eq_refl)
    as (s' & Hrun & _ & Hc & Hst & _).
  exists s'. repeat split; assumption.
Defined.

Lemma ServeHTTP_miss_reports_upstream_code_witness :
  ∃ s' e,
    ServeHTTP Demo.CanonicalMIMEHeaderKey Demo.Query_Encode Demo.range
      Demo.shouldUseCache Demo.getCacheableStatus Demo.PipeHandlerToChannels
      Demo.handler (Demo.request "/hello" ["gzip"])
      (Demo.world Demo.key [] (λ _, None))
    = Returns (200, None) s' ∧
    e ∈ Cache_entries Demo.key (cache s') ∧
    isPublic e = true.
Proof.
  destruct (ServeHTTP_miss_reports_upstream_code Demo.CanonicalMIMEHeaderKey
              Demo.Query_Encode Demo.range Demo.shouldUseCache
              Demo.getCacheableStatus Demo.PipeHandlerToChannels Demo.handler
              (Demo.request "/hello" ["gzip"])
              (Demo.world Demo.key [] (λ _, None)) None true 600
              eq_refl eq_refl eq_refl eq_refl eq_refl)
    as (s' & e & Hrun & Hin & Hp & _).
  exists s', e. repeat split; assumption.
Defined.

Lemma miss_then_hit_witness :
  ∃ code s1 s2,
    ServeHTTP Demo.CanonicalMIMEHeaderKey Demo.Query_Encode Demo.range
      Demo.shouldUseCache Demo.getCacheableStatus Demo.PipeHandlerToChannels
      Demo.handler (Demo.request "/hello" ["gzip"])
      (Demo.world Demo.key [] (λ _, None))
    = Returns (code, None) s1 ∧
    ServeHTTP Demo.CanonicalMIMEHeaderKey Demo.Query_Encode Demo.range
      Demo.shouldUseCache Demo.getCacheableStatus Demo.PipeHandlerToChannels
      Demo.handler (Demo.request "/hello" ["gzip"]) s1
    = Returns (code, None) s2 ∧
    cache s2 = cache s1.
Proof.
  destruct (miss_then_hit Demo.CanonicalMIMEHeaderKey Demo.Query_Encode
              Demo.range (λ m, reflexivity _) Demo.shouldUseCache
              Demo.getCacheableStatus Demo.PipeHandlerToChannels Demo.handler
              (Demo.request "/hello" ["gzip"])
              (Demo.world Demo.key [] (λ _, None)) None 600
              eq_refl eq_refl eq_refl eq_refl eq_refl)
    as (code & s1 & s2 & H1 & H2 & Hc & _).
  { intros H. vm_compute in H. discriminate H. }
  exists code, s1, s2. repeat split; assumption.
Defined.

Lemma MissPath_blocked_on_end_reachable :
  MissPath.reachable MissPath.failing MissPath.blocked_on_end.
Proof.
  unfold MissPath.reachable, MissPath.initial, MissPath.blocked_on_end.
  eapply rtc_l; [apply MissPath.step_go_handle |].
  eapply rtc_l; [apply MissPath.step_headers |].
  eapply rtc_l; [by apply MissPath.step_abort |].
  eapply rtc_l; [apply MissPath.step_close_body |].
  apply rtc_refl.
Qed.

(** The run go, headers, failure of the policy, end of the responder:
    [ServeHTTP] has returned and the goroutine of line 100 stands at its
    send. *)
Lemma MissPath_abort_blocks_handle_witness :
  MissPath.main MissPath.blocked_on_end = MissPath.main_returned ∧
  MissPath.handle MissPath.blocked_on_end = Some MissPath.handle_send_end ∧
  MissPath.handle MissPath.blocked_on_end ≠ Some MissPath.handle_done ∧
  MissPath.consumer MissPath.blocked_on_end = None ∧
  MissPath.written MissPath.blocked_on_end = "" ∧
  MissPath.closed MissPath.blocked_on_end = false.
Proof.
  split; [reflexivity |]. split; [reflexivity |].
  apply (MissPath_abort_blocks_handle MissPath.failing).
  - reflexivity.
  - exact MissPath_blocked_on_end_reachable.
Defined.

Lemma MissPath_content_is_prefix_witness :
  (∃ rest,
     MissPath.written MissPath.returned_early +:+ rest
     = MissPath.join (MissPath.chunks MissPath.one_chunk)) ∧
  (MissPath.closed MissPath.returned_early = true →
   MissPath.written MissPath.returned_early
   = MissPath.join (MissPath.chunks MissPath.one_chunk)).
Proof.
  apply MissPath_content_is_prefix.
  - reflexivity.
  - exact MissPath_returned_early_reachable.
Defined.

Lemma MissPath_can_finish_witness :
  ∃ s',
    rtc (MissPath.step MissPath.one_chunk) MissPath.returned_early s' ∧
    MissPath.finished s' ∧
    (MissPath.decides MissPath.one_chunk = MissPath.save →
     MissPath.written s' = MissPath.join (MissPath.chunks MissPath.one_chunk) ∧
     MissPath.closed s' = true).
Proof.
  apply MissPath_can_finish.
  - discriminate.
  - exact MissPath_returned_early_reachable.
Defined.

(** Three requests with different headers and the same encoding, and
    the entries built for the first two. *)
Lemma matchesRequest_symmetric_transitive_witness :
  Demo.entry true ["Accept-Encoding"] ≠ Demo.entry_with_cookie ∧
  http.Header (Demo.request "/hello" ["gzip"])
    ≠ http.Header Demo.request_with_cookie ∧
  matchesRequest Demo.request_with_cookie (Demo.entry true ["Accept-Encoding"])
  = matchesRequest (Demo.request "/hello" ["gzip"]) Demo.entry_with_cookie ∧
  matchesRequest Demo.request_with_agent (Demo.entry true ["Accept-Encoding"])
  = Some true.
Proof.
  split; [intros H; by apply (f_equal (λ e, Request.HeaderMap (Request e)
                                              !! "Cookie")) in H |].
  split; [intros H; by apply (f_equal (.!! "Cookie")) in H |].
  destruct (matchesRequest_symmetric_transitive
              (Demo.request "/hello" ["gzip"]) Demo.request_with_cookie
              Demo.request_with_agent
              (Demo.entry true ["Accept-Encoding"]) Demo.entry_with_cookie
              eq_refl eq_refl eq_refl) as [Hsym Htrans].
  split; [exact Hsym |]. apply Htrans; reflexivity.
Defined.
